(** * noether/Layers.h: layers of the compute graph

    A shallow embedding of [ConvLayer] and [FullyConnectedLayer] from
    [include/noether/Layers.h].  Sizes are [size_t] values, kept as [Z]
    with the 64-bit wrap-around written out.  A member function that can
    trip an [assert] or leave defined behaviour returns a [result]; the
    object it mutates is passed in and handed back. *)

From stdpp Require Import base numbers list strings.
From Stdlib Require Import ZArith Lia.

Local Open Scope Z_scope.

(** ** [size_t] *)

Definition size_modulus : Z := 2 ^ 64.

(** Reduction of a mathematical integer to the [size_t] it is stored as. *)
Definition wrap (z : Z) : Z := z mod size_modulus.

Definition is_size_t (z : Z) : Prop := 0 <= z < size_modulus.

(** ** Outcomes *)

(** The tensor an access goes to; carried by an out-of-range fault. *)
Inductive buffer : Set :=
| InputBuffer
| FilterBuffer
| BiasBuffer
| OutputBuffer
| FilterVector.

Inductive fault : Set :=
| AssertionFailed (msg : string)
| DivisionByZero
| OutOfBounds (b : buffer).

Inductive result (A : Type) : Type :=
| Ok (a : A)
| Fault (f : fault).

Arguments Ok {A} a.
Arguments Fault {A} f.

#[export] Instance result_ret : MRet result := fun A a => Ok a.

#[export] Instance result_bind : MBind result := fun A B k m =>
  match m with
  | Ok a => k a
  | Fault f => Fault f
  end.

(** [assert(c && msg)] *)
Definition assert (c : bool) (msg : string) : result unit :=
  if c then Ok tt else Fault (AssertionFailed msg).

(** Unsigned division of two [size_t]; a zero divisor is undefined. *)
Definition udiv (a b : Z) : result Z :=
  if b =? 0 then Fault DivisionByZero else Ok (a / b).

(** An access that is defined only in range. *)
Definition deref {A : Type} (b : buffer) (o : option A) : result A :=
  match o with
  | Some a => Ok a
  | None => Fault (OutOfBounds b)
  end.

(** [for (size_t i = 0; i < hi; i++) body]: [n] iterations are left and the
    counter stands at [i]. *)
Fixpoint iterate {St : Type} (n : nat) (i : Z)
    (body : Z -> St -> result St) (s : St) : result St :=
  match n with
  | O => Ok s
  | S n' => s' ← body i s; iterate n' (wrap (i + 1)) body s'
  end.

Definition for_upto {St : Type} (hi : Z)
    (body : Z -> St -> result St) (s : St) : result St :=
  iterate (Z.to_nat hi) 0 body s.

(** ** Element type *)

(** What the templates ask of [ElemTy]: the value [0], [+=] and [*]. *)
Class ElemTy (E : Type) : Type := {
  zero : E;
  add : E -> E -> E;
  mul : E -> E -> E
}.

#[export] Instance Z_ElemTy : ElemTy Z :=
  {| zero := 0; add := Z.add; mul := Z.mul |}.

(** ** Array3D *)

Section Tensor.
Context {E : Type} `{ElemTy E}.

(** Modelled from the spec: [Array3D] of noether/Tensor.h, which Layers.h
    includes and which is not part of the sources at hand.  Three
    dimensions and one flat buffer; [(x, y, z)] is stored at
    [(x * sy + y) * sz + z], depth running fastest. *)
Record Array3D : Type := mkArray3D {
  sx : Z;
  sy : Z;
  sz : Z;
  data : list E
}.

(** Modelled from the spec: [dims()] returns the current shape. *)
Definition dims (t : Array3D) : Z * Z * Z := (sx t, sy t, sz t).

(** Modelled from the spec: [size()] is the element count [sx*sy*sz], a
    [size_t]. *)
Definition size (t : Array3D) : Z := wrap (sx t * sy t * sz t).

(** Modelled from the spec: [reset(sx, sy, sz)] reallocates storage for
    exactly [sx*sy*sz] elements and drops the prior contents.  Running out
    of memory is not modelled. *)
Definition reset (x y z : Z) : Array3D :=
  {| sx := x; sy := y; sz := z;
     data := replicate (Z.to_nat (x * y * z)) zero |}.

(** Modelled from the spec: [isInBounds(x, y)] holds iff [0 <= x < sx] and
    [0 <= y < sy]. *)
Definition isInBounds (t : Array3D) (x y : Z) : bool :=
  (0 <=? x) && (x <? sx t) && (0 <=? y) && (y <? sy t).

Definition inRange (t : Array3D) (x y z : Z) : bool :=
  isInBounds t x y && (0 <=? z) && (z <? sz t).

Definition offset (t : Array3D) (x y z : Z) : nat :=
  Z.to_nat ((x * sy t + y) * sz t + z).

(** Modelled from the spec: [get(x, y, z)] used as an rvalue.  Outside
    [0<=x<sx, 0<=y<sy, 0<=z<sz] the access is undefined: [None]. *)
Definition get (t : Array3D) (x y z : Z) : option E :=
  if inRange t x y z then data t !! offset t x y z else None.

(** Modelled from the spec: [get(x, y, z) = v], the same access used as an
    lvalue. *)
Definition put (t : Array3D) (x y z : Z) (v : E) : option Array3D :=
  if inRange t x y z && (offset t x y z <? length (data t))%nat
  then Some {| sx := sx t; sy := sy t; sz := sz t;
               data := <[offset t x y z := v]> (data t) |}
  else None.

(** Modelled from the spec: flat indexing [get(i)], also written [t[i]],
    of a tensor used as a weight or bias vector. *)
Definition get_flat (t : Array3D) (i : Z) : option E :=
  if (0 <=? i) && (i <? size t) then data t !! Z.to_nat i else None.

(** The invariant of a tensor: dimensions are [size_t], the buffer holds
    [sx*sy*sz] elements, and that count is itself a [size_t]. *)
Definition Array3D_wf (t : Array3D) : Prop :=
  is_size_t (sx t) /\ is_size_t (sy t) /\ is_size_t (sz t) /\
  sx t * sy t * sz t < size_modulus /\
  Z.of_nat (length (data t)) = sx t * sy t * sz t.

(** ** Layer *)

(** What a layer sees of its predecessor through [Layer<ElemTy> *]: the
    pointee's name and the tensor [getOutput()] refers to. *)
Record Layer : Type := mkLayer {
  getName : string;
  getOutput : Array3D
}.

(** [Layer::dims] *)
Definition Layer_dims (l : Layer) : Z * Z * Z := dims (getOutput l).

(** [Layer::size] *)
Definition Layer_size (l : Layer) : Z := size (getOutput l).

End Tensor.

Arguments Array3D E : clear implicits.
Arguments Layer E : clear implicits.

(** ** ConvLayer *)

Module ConvLayer.
Section WithElemTy.
Context {E : Type} `{ElemTy E}.

(** The data members of the class.  [input_] stands for the predecessor the
    pointer refers to, so that a write through it would show. *)
Record t : Type := mk {
  input_ : Layer E;
  filters_ : list (Array3D E);
  bias_ : Array3D E;
  output_ : Array3D E;
  filterSize_ : Z;
  stride_ : Z;
  pad_ : Z
}.

Definition set_output (self : t) (o : Array3D E) : t :=
  {| input_ := input_ self; filters_ := filters_ self; bias_ := bias_ self;
     output_ := o; filterSize_ := filterSize_ self; stride_ := stride_ self;
     pad_ := pad_ self |}.

(** [filters_.emplace(sx, sy, sz)]: one more filter of that shape at the
    end of the vector. *)
Definition emplace_filter (self : t) (f : Array3D E) : t :=
  {| input_ := input_ self; filters_ := filters_ self ++ [f];
     bias_ := bias_ self; output_ := output_ self;
     filterSize_ := filterSize_ self; stride_ := stride_ self;
     pad_ := pad_ self |}.

(** The constructor, lines 48-65.  [input] is the pointer argument, [None]
    when null. *)
Definition new (input : option (Layer E))
    (outDepth filterSize stride pad : Z) : result t :=
  _ ← assert (pad =? 0) "Unsupported pad size";
  match input with
  | None => Fault (AssertionFailed "Invalid input layer")
  | Some inp =>
      let '(inx, iny, inz) := Layer_dims inp in
      qx ← udiv (wrap (wrap (inx + wrap (pad * 2)) - filterSize)) stride;
      let outsx := wrap (qx + 1) in
      qy ← udiv (wrap (wrap (iny + wrap (pad * 2)) - filterSize)) stride;
      let outsy := wrap (qy + 1) in
      let self :=
        {| input_ := inp; filters_ := [];
           bias_ := reset 1 1 outDepth;
           output_ := reset outsx outsy outDepth;
           filterSize_ := filterSize; stride_ := stride; pad_ := pad |} in
      for_upto outDepth
        (fun _ self => Ok (emplace_filter self (reset filterSize filterSize inz)))
        self
  end.

(** Lines 93-96: the taps of one filter cell over the input depth. *)
Definition accumulate_depth (currFilter inputBuffer : Array3D E)
    (inz fx fy ox oy : Z) (sum : E) : result E :=
  for_upto inz
    (fun fd sum =>
       w ← deref FilterBuffer (get currFilter fx fy fd);
       v ← deref InputBuffer (get inputBuffer ox oy fd);
       Ok (add sum (mul w v)))
    sum.

(** Lines 86-99: the sum over one window anchored at [(x, y)]. *)
Definition window_sum (self : t) (currFilter inputBuffer : Array3D E)
    (inz x y : Z) : result E :=
  for_upto (filterSize_ self)
    (fun fy sum =>
       for_upto (filterSize_ self)
         (fun fx sum =>
            let ox := wrap (x + fx) in
            let oy := wrap (y + fy) in
            if isInBounds (output_ self) ox oy
            then accumulate_depth currFilter inputBuffer inz fx fy ox oy sum
            else Ok sum)
         sum)
    zero.

(** Lines 83-103: one row of jumps; the state is [x] and the object. *)
Definition forward_row (outy inz d ay y : Z) (currFilter : Array3D E)
    (self : t) : result t :=
  '(_, self') ←
    for_upto outy
      (fun ax '(x, self) =>
         sum ← window_sum self currFilter (getOutput (input_ self)) inz x y;
         b ← deref BiasBuffer (get_flat (bias_ self) d);
         let sum := add sum b in
         o ← deref OutputBuffer (put (output_ self) ax ay d sum);
         Ok (wrap (x + stride_ self), set_output self o))
      (0, self);
  Ok self'.

(** Lines 80-104: all rows of one depth slice; the state is [y] and the
    object. *)
Definition forward_slice (outy inz d : Z) (self : t) : result t :=
  currFilter ← deref FilterVector (filters_ self !! Z.to_nat d);
  '(_, self') ←
    for_upto outy
      (fun ay '(y, self) =>
         self' ← forward_row outy inz d ay y currFilter self;
         Ok (wrap (y + stride_ self'), self'))
      (0, self);
  Ok self'.

(** [forward()], lines 67-106. *)
Definition forward (self : t) : result t :=
  let '(outx, outy, outz) := dims (output_ self) in
  let '(inx, iny, inz) := Layer_dims (input_ self) in
  for_upto outz (fun d self => forward_slice outy inz d self) self.

End WithElemTy.
Arguments t E : clear implicits.
End ConvLayer.

(** ** FullyConnectedLayer *)

Module FullyConnectedLayer.
Section WithElemTy.
Context {E : Type} `{ElemTy E}.

Record t : Type := mk {
  input_ : Layer E;
  filters_ : list (Array3D E);
  bias_ : Array3D E;
  output_ : Array3D E
}.

Definition set_output (self : t) (o : Array3D E) : t :=
  {| input_ := input_ self; filters_ := filters_ self; bias_ := bias_ self;
     output_ := o |}.

Definition emplace_filter (self : t) (f : Array3D E) : t :=
  {| input_ := input_ self; filters_ := filters_ self ++ [f];
     bias_ := bias_ self; output_ := output_ self |}.

(** The constructor, lines 119-132. *)
Definition new (input : option (Layer E)) (outDepth : Z) : result t :=
  match input with
  | None => Fault (AssertionFailed "Invalid input layer")
  | Some inp =>
      let self :=
        {| input_ := inp; filters_ := [];
           bias_ := reset 1 1 outDepth;
           output_ := reset 1 1 outDepth |} in
      let numInputs := Layer_size inp in
      for_upto outDepth
        (fun _ self => Ok (emplace_filter self (reset 1 1 numInputs)))
        self
  end.

(** Lines 146-153: the pass over the input, [x] outermost and [z]
    innermost; the state is [sum] and the running index [idx]. *)
Definition flatten_dot (inputBuffer currFilter : Array3D E)
    (inx iny inz : Z) : result (E * Z) :=
  for_upto inx
    (fun x st =>
       for_upto iny
         (fun y st =>
            for_upto inz
              (fun z '(sum, idx) =>
                 v ← deref InputBuffer (get inputBuffer x y z);
                 w ← deref FilterBuffer (get_flat currFilter idx);
                 Ok (add sum (mul v w), wrap (idx + 1)))
              st)
         st)
    (zero, 0).

(** Lines 143-156: one output unit. *)
Definition forward_unit (inx iny inz numInputs i : Z) (self : t) : result t :=
  currFilter ← deref FilterVector (filters_ self !! Z.to_nat i);
  '(sum, idx) ← flatten_dot (getOutput (input_ self)) currFilter inx iny inz;
  _ ← assert (idx =? numInputs) "Invalid index";
  b ← deref BiasBuffer (get_flat (bias_ self) i);
  let sum := add sum b in
  o ← deref OutputBuffer (put (output_ self) 1 1 i sum);
  Ok (set_output self o).

(** [forward()], lines 134-158. *)
Definition forward (self : t) : result t :=
  let '(inx, iny, inz) := Layer_dims (input_ self) in
  let '(outx, outy, outz) := dims (output_ self) in
  let numInputs := Layer_size (input_ self) in
  for_upto outz (fun i self => forward_unit inx iny inz numInputs i self) self.

End WithElemTy.
Arguments t E : clear implicits.
End FullyConnectedLayer.

(** * Vocabulary of the statements *)

Section Vocabulary.
Context {E : Type} `{ElemTy E}.

(** Two tensors of one shape over buffers of one length. *)
Definition same_shape (o1 o2 : Array3D E) : Prop :=
  sx o2 = sx o1 /\ sy o2 = sy o1 /\ sz o2 = sz o1 /\
  length (data o2) = length (data o1).

(** Every cell of [d2] holds what [d1] holds there or what [final] holds
    there. *)
Definition cellwise (final d1 d2 : list E) : Prop :=
  forall k : nat, d2 !! k = d1 !! k \/ d2 !! k = final !! k.

(** Everything of a [ConvLayer] but the contents of its output. *)
Definition conv_frame (a b : ConvLayer.t E) : Prop :=
  ConvLayer.input_ b = ConvLayer.input_ a /\
  ConvLayer.filters_ b = ConvLayer.filters_ a /\
  ConvLayer.bias_ b = ConvLayer.bias_ a /\
  ConvLayer.filterSize_ b = ConvLayer.filterSize_ a /\
  ConvLayer.stride_ b = ConvLayer.stride_ a /\
  ConvLayer.pad_ b = ConvLayer.pad_ a /\
  same_shape (ConvLayer.output_ a) (ConvLayer.output_ b).

Definition conv_rel (final : list E) (a b : ConvLayer.t E) : Prop :=
  conv_frame a b /\
  cellwise final (data (ConvLayer.output_ a)) (data (ConvLayer.output_ b)).

(** Everything of a [FullyConnectedLayer] but the contents of its output. *)
Definition fc_frame (a b : FullyConnectedLayer.t E) : Prop :=
  FullyConnectedLayer.input_ b = FullyConnectedLayer.input_ a /\
  FullyConnectedLayer.filters_ b = FullyConnectedLayer.filters_ a /\
  FullyConnectedLayer.bias_ b = FullyConnectedLayer.bias_ a /\
  same_shape (FullyConnectedLayer.output_ a) (FullyConnectedLayer.output_ b).

Definition fc_rel (final : list E) (a b : FullyConnectedLayer.t E) : Prop :=
  fc_frame a b /\
  cellwise final (data (FullyConnectedLayer.output_ a))
                 (data (FullyConnectedLayer.output_ b)).

(** A tensor of the shape of [t] over the buffer [d]. *)
Definition with_data (t : Array3D E) (d : list E) : Array3D E :=
  {| sx := sx t; sy := sy t; sz := sz t; data := d |}.

(** A constructed [ConvLayer] after the driver has stored weights and bias,
    with [out] standing in the cells of the output tensor. *)
Definition conv_loaded (L : ConvLayer.t E) (weights : list (list E))
    (bias out : list E) : ConvLayer.t E :=
  {| ConvLayer.input_ := ConvLayer.input_ L;
     ConvLayer.filters_ := zip_with with_data (ConvLayer.filters_ L) weights;
     ConvLayer.bias_ := with_data (ConvLayer.bias_ L) bias;
     ConvLayer.output_ := with_data (ConvLayer.output_ L) out;
     ConvLayer.filterSize_ := ConvLayer.filterSize_ L;
     ConvLayer.stride_ := ConvLayer.stride_ L;
     ConvLayer.pad_ := ConvLayer.pad_ L |}.

(** The same for a [FullyConnectedLayer]. *)
Definition fc_loaded (L : FullyConnectedLayer.t E) (weights : list (list E))
    (bias out : list E) : FullyConnectedLayer.t E :=
  {| FullyConnectedLayer.input_ := FullyConnectedLayer.input_ L;
     FullyConnectedLayer.filters_ :=
       zip_with with_data (FullyConnectedLayer.filters_ L) weights;
     FullyConnectedLayer.bias_ := with_data (FullyConnectedLayer.bias_ L) bias;
     FullyConnectedLayer.output_ :=
       with_data (FullyConnectedLayer.output_ L) out |}.

(** What the constructor of [ConvLayer] leaves behind and [forward()]
    relies on: well-formed tensors, a bias of one element per depth slice,
    and one filter per depth slice, each of the filter size squared and as
    deep as the input. *)
Definition ConvLayer_inv (L : ConvLayer.t E) : Prop :=
  Array3D_wf (getOutput (ConvLayer.input_ L)) /\
  Array3D_wf (ConvLayer.output_ L) /\
  Array3D_wf (ConvLayer.bias_ L) /\
  dims (ConvLayer.bias_ L) = (1, 1, sz (ConvLayer.output_ L)) /\
  is_size_t (ConvLayer.filterSize_ L) /\
  length (ConvLayer.filters_ L) = Z.to_nat (sz (ConvLayer.output_ L)) /\
  Forall (fun cf => Array3D_wf cf /\
                    dims cf = (ConvLayer.filterSize_ L, ConvLayer.filterSize_ L,
                               sz (getOutput (ConvLayer.input_ L))))
         (ConvLayer.filters_ L).

(** The same for [FullyConnectedLayer]: output and bias are [(1, 1, D)]
    and there are [D] weight vectors of [numInputs] elements. *)
Definition FullyConnectedLayer_inv (L : FullyConnectedLayer.t E) : Prop :=
  Array3D_wf (getOutput (FullyConnectedLayer.input_ L)) /\
  Array3D_wf (FullyConnectedLayer.output_ L) /\
  sx (FullyConnectedLayer.output_ L) = 1 /\
  sy (FullyConnectedLayer.output_ L) = 1 /\
  Array3D_wf (FullyConnectedLayer.bias_ L) /\
  dims (FullyConnectedLayer.bias_ L)
    = (1, 1, sz (FullyConnectedLayer.output_ L)) /\
  length (FullyConnectedLayer.filters_ L)
    = Z.to_nat (sz (FullyConnectedLayer.output_ L)) /\
  Forall (fun cf => Array3D_wf cf /\
                    dims cf = (1, 1, Layer_size (FullyConnectedLayer.input_ L)))
         (FullyConnectedLayer.filters_ L).

(** The value that lines 86-102 compute for the output cell
    [(ax, ay, d)]: the window of filter [d] anchored at
    [(ax * stride, ay * stride)], then the bias of slice [d]. *)
Definition conv_cell (L : ConvLayer.t E) (ax ay d : Z) : result E :=
  cf ← deref FilterVector (ConvLayer.filters_ L !! Z.to_nat d);
  sum ← ConvLayer.window_sum L cf (getOutput (ConvLayer.input_ L))
          (sz (getOutput (ConvLayer.input_ L)))
          (wrap (ax * ConvLayer.stride_ L)) (wrap (ay * ConvLayer.stride_ L));
  b ← deref BiasBuffer (get_flat (ConvLayer.bias_ L) d);
  Ok (add sum b).

(** The cells the three loops of [ConvLayer::forward] have stored when
    they stand at slice [d], row [ay], column [ax]; both the row and the
    column counter run up to [outy]. *)
Definition done_slice (outy d : Z) (x y z : Z) : Prop :=
  0 <= z < d /\ 0 <= y < outy /\ 0 <= x < outy.

Definition done_row (outy d ay : Z) (x y z : Z) : Prop :=
  done_slice outy d x y z \/ (z = d /\ 0 <= y < ay /\ 0 <= x < outy).

Definition done_col (outy d ay ax : Z) (x y z : Z) : Prop :=
  done_row outy d ay x y z \/ (z = d /\ y = ay /\ 0 <= x < ax).

(** [o] holds the computed value in every cell that is [done] and what the
    output of [L] held in every other cell. *)
Definition stored_where (L : ConvLayer.t E) (done : Z -> Z -> Z -> Prop)
    (o : Array3D E) : Prop :=
  forall x y z,
    (done x y z ->
       exists v, conv_cell L x y z = Ok v /\ get o x y z = Some v) /\
    (~ done x y z -> get o x y z = get (ConvLayer.output_ L) x y z).

(** The dot product of two flat buffers, accumulated from the left. *)
Definition flat_dot (xs ws : list E) : E :=
  foldl (fun acc p => add acc (mul p.1 p.2)) zero (zip xs ws).

End Vocabulary.

(** ** Inputs of the worked scenarios, over [ElemTy = Z] *)

(** A predecessor whose output is the tensor [(x, y, z)] over [d]. *)
Definition input_layer (x y z : Z) (d : list Z) : Layer Z :=
  {| getName := "input"; getOutput := mkArray3D x y z d |}.

(** 5x5x1, every element one. *)
Definition ones_5x5 : Layer Z := input_layer 5 5 1 (replicate 25 1).

(** 2x1x1 and 1x2x1 holding 3 and 5. *)
Definition wide_2x1 : Layer Z := input_layer 2 1 1 [3; 5].
Definition tall_1x2 : Layer Z := input_layer 1 2 1 [3; 5].

(** 1x1x1 and 2x2x1. *)
Definition single_1x1 : Layer Z := input_layer 1 1 1 [1].
Definition square_2x2 : Layer Z := input_layer 2 2 1 [1; 1; 1; 1].

(** 7x5x2, every element zero. *)
Definition zeros_7x5x2 : Layer Z := input_layer 7 5 2 (replicate 70 0).

(** The scenario of the 5x5 input: filter size 3, stride 1, no padding, one
    filter of ones and bias zero, as constructed and loaded, and the state
    in which [forward()] leaves it. *)
Definition conv_5x5 : ConvLayer.t Z :=
  {| ConvLayer.input_ := ones_5x5;
     ConvLayer.filters_ := [mkArray3D 3 3 1 (replicate 9 1)];
     ConvLayer.bias_ := mkArray3D 1 1 1 [0];
     ConvLayer.output_ := mkArray3D 3 3 1 (replicate 9 0);
     ConvLayer.filterSize_ := 3; ConvLayer.stride_ := 1;
     ConvLayer.pad_ := 0 |}.

Definition conv_5x5_after : ConvLayer.t Z :=
  ConvLayer.set_output conv_5x5 (mkArray3D 3 3 1 [9; 6; 3; 6; 4; 2; 3; 2; 1]).

(** One output unit over [wide_2x1], both weights one and bias zero. *)
Definition fc_wide : FullyConnectedLayer.t Z :=
  {| FullyConnectedLayer.input_ := wide_2x1;
     FullyConnectedLayer.filters_ := [mkArray3D 1 1 2 [1; 1]];
     FullyConnectedLayer.bias_ := mkArray3D 1 1 1 [0];
     FullyConnectedLayer.output_ := mkArray3D 1 1 1 [0] |}.

(** No output unit over [wide_2x1]. *)
Definition fc_empty : FullyConnectedLayer.t Z :=
  {| FullyConnectedLayer.input_ := wide_2x1;
     FullyConnectedLayer.filters_ := [];
     FullyConnectedLayer.bias_ := mkArray3D 1 1 0 [];
     FullyConnectedLayer.output_ := mkArray3D 1 1 0 [] |}.

(** The layer over [tall_1x2]: a 1x1 filter of weight one, stride 1, bias
    zero; the output is 1x2x1. *)
Definition conv_tall : ConvLayer.t Z :=
  {| ConvLayer.input_ := tall_1x2;
     ConvLayer.filters_ := [mkArray3D 1 1 1 [1]];
     ConvLayer.bias_ := mkArray3D 1 1 1 [0];
     ConvLayer.output_ := mkArray3D 1 2 1 [0; 0];
     ConvLayer.filterSize_ := 1; ConvLayer.stride_ := 1;
     ConvLayer.pad_ := 0 |}.

(** The layer of the 5x5 scenario as the constructor leaves it. *)
Definition conv_5x5_fresh : ConvLayer.t Z :=
  {| ConvLayer.input_ := ones_5x5;
     ConvLayer.filters_ := [mkArray3D 3 3 1 (replicate 9 0)];
     ConvLayer.bias_ := mkArray3D 1 1 1 [0];
     ConvLayer.output_ := mkArray3D 3 3 1 (replicate 9 0);
     ConvLayer.filterSize_ := 3; ConvLayer.stride_ := 1;
     ConvLayer.pad_ := 0 |}.

(** One output unit over [wide_2x1] as the constructor leaves it. *)
Definition fc_wide_fresh : FullyConnectedLayer.t Z :=
  {| FullyConnectedLayer.input_ := wide_2x1;
     FullyConnectedLayer.filters_ := [mkArray3D 1 1 2 [0; 0]];
     FullyConnectedLayer.bias_ := mkArray3D 1 1 1 [0];
     FullyConnectedLayer.output_ := mkArray3D 1 1 1 [0] |}.

(** * Reasoning about outcomes and loops *)

Lemma bind_Ok {A B : Type} (m : result A) (k : A -> result B) (b : B) :
  m ≫= k = Ok b -> exists a, m = Ok a /\ k a = Ok b.
Proof. destruct m as [a|f]; simpl; [eauto | discriminate]. Qed.

Lemma bind_Fault {A B : Type} (m : result A) (k : A -> result B) (f : fault) :
  m ≫= k = Fault f -> m = Fault f \/ exists a, m = Ok a /\ k a = Fault f.
Proof. destruct m as [a|g]; simpl; [eauto | intros [= ->]; auto]. Qed.

(** Splits a hypothesis [m ≫= k = Ok b] into its two steps. *)
Ltac inv_bind H :=
  let a := fresh "r" in
  let H1 := fresh H "a" in
  let H2 := fresh H "b" in
  apply bind_Ok in H; destruct H as (a & H1 & H2).

Lemma wrap_small (z : Z) : is_size_t z -> wrap z = z.
Proof. unfold is_size_t, wrap. intros Hz. apply Z.mod_small. exact Hz. Qed.

Section Loops.
Context {St : Type}.
Implicit Types (n : nat) (i : Z) (body : Z -> St -> result St) (s : St).

(** A property kept by every iteration that completes is kept by the loop. *)
Lemma iterate_inv (P : St -> Prop) body :
  (forall i s s', P s -> body i s = Ok s' -> P s') ->
  forall n i s s', P s -> iterate n i body s = Ok s' -> P s'.
Proof.
  intros Hstep n. induction n as [|n IH]; intros i s s' Hs Hrun; simpl in Hrun.
  - injection Hrun as <-. exact Hs.
  - inv_bind Hrun. eapply IH; [|eassumption]. eapply Hstep; eassumption.
Qed.

(** A fault of the loop is a fault of some iteration. *)
Lemma iterate_fault (Q : fault -> Prop) body :
  (forall i s f, body i s = Fault f -> Q f) ->
  forall n i s f, iterate n i body s = Fault f -> Q f.
Proof.
  intros Hstep n. induction n as [|n IH]; intros i s f Hrun; simpl in Hrun.
  - discriminate.
  - apply bind_Fault in Hrun as [Hf | (s' & _ & Hf)]; eauto.
Qed.

(** Two runs of loops whose iterations keep a relation between the states
    stay related; the second completes whenever the first does. *)
Lemma iterate_rel {St2 : Type} (R : St -> St2 -> Prop) body
    (body2 : Z -> St2 -> result St2) :
  (forall i a b a', R a b -> body i a = Ok a' ->
     exists b', body2 i b = Ok b' /\ R a' b') ->
  forall n i a b a', R a b -> iterate n i body a = Ok a' ->
     exists b', iterate n i body2 b = Ok b' /\ R a' b'.
Proof.
  intros Hstep n. induction n as [|n IH]; intros i a b a' Hab Hrun;
    simpl in Hrun.
  - injection Hrun as <-. exists b. split; [reflexivity | exact Hab].
  - inv_bind Hrun.
    destruct (Hstep _ _ _ _ Hab Hruna) as (b1 & Hb1 & HR).
    destruct (IH _ _ _ _ HR Hrunb) as (b' & Hb' & HR').
    exists b'. split; [|exact HR']. simpl. rewrite Hb1. exact Hb'.
Qed.

(** The counter of [for_upto hi] takes the values [0 .. hi-1], unwrapped,
    when [hi] is a [size_t]. *)
Lemma iterate_counted (P : Z -> St -> Prop) body :
  forall n i s s',
    0 <= i -> i + Z.of_nat n <= size_modulus ->
    (forall j t t', i <= j < i + Z.of_nat n -> P j t -> body j t = Ok t' ->
       P (j + 1) t') ->
    P i s -> iterate n i body s = Ok s' -> P (i + Z.of_nat n) s'.
Proof.
  induction n as [|n IH]; intros i s s' Hi Hn Hstep Hs Hrun; simpl in Hrun.
  - injection Hrun as <-. replace (i + Z.of_nat 0) with i by lia. exact Hs.
  - inv_bind Hrun.
    assert (Hr : P (i + 1) r) by (eapply Hstep; [lia | eassumption..]).
    destruct n as [|n].
    + simpl in Hrunb. injection Hrunb as <-.
      replace (i + Z.of_nat 1) with (i + 1) by lia. exact Hr.
    + rewrite wrap_small in Hrunb by (unfold is_size_t; lia).
      replace (i + Z.of_nat (S (S n))) with (i + 1 + Z.of_nat (S n)) by lia.
      eapply IH; [lia | lia | | exact Hr | exact Hrunb].
      intros j t t' Hj. apply Hstep. lia.
Qed.

Lemma for_upto_counted (P : Z -> St -> Prop) hi body s s' :
  is_size_t hi ->
  (forall j t t', 0 <= j < hi -> P j t -> body j t = Ok t' -> P (j + 1) t') ->
  P 0 s -> for_upto hi body s = Ok s' -> P hi s'.
Proof.
  unfold for_upto, is_size_t. intros Hhi Hstep Hs Hrun.
  replace hi with (0 + Z.of_nat (Z.to_nat hi)) by lia.
  eapply iterate_counted; [lia | lia | | exact Hs | exact Hrun].
  intros j t t' Hj. apply Hstep. lia.
Qed.

(** The loop completes when every iteration does. *)
Lemma iterate_total (P : Z -> St -> Prop) body :
  forall n i s,
    0 <= i -> i + Z.of_nat n <= size_modulus ->
    (forall j t, i <= j < i + Z.of_nat n -> P j t ->
       exists t', body j t = Ok t' /\ P (j + 1) t') ->
    P i s -> exists s', iterate n i body s = Ok s' /\ P (i + Z.of_nat n) s'.
Proof.
  induction n as [|n IH]; intros i s Hi Hn Hstep Hs; simpl.
  - exists s. replace (i + Z.of_nat 0) with i by lia. auto.
  - destruct (Hstep i s ltac:(lia) Hs) as (r & -> & Hr). simpl.
    destruct n as [|n].
    + exists r. simpl. replace (i + Z.of_nat 1) with (i + 1) by lia. auto.
    + rewrite wrap_small by (unfold is_size_t; lia).
      replace (i + Z.of_nat (S (S n))) with (i + 1 + Z.of_nat (S n)) by lia.
      apply IH; [lia | lia | | exact Hr].
      intros j t Hj. apply Hstep. lia.
Qed.

Lemma for_upto_total (P : Z -> St -> Prop) hi body s :
  is_size_t hi ->
  (forall j t, 0 <= j < hi -> P j t ->
     exists t', body j t = Ok t' /\ P (j + 1) t') ->
  P 0 s -> exists s', for_upto hi body s = Ok s' /\ P hi s'.
Proof.
  unfold for_upto, is_size_t. intros Hhi Hstep Hs.
  destruct (iterate_total P body (Z.to_nat hi) 0 s) as (s' & Hrun & Hs');
    [lia | lia | | exact Hs | ].
  - intros j t Hj. apply Hstep. lia.
  - exists s'. split; [exact Hrun|].
    replace hi with (0 + Z.of_nat (Z.to_nat hi)) by lia. exact Hs'.
Qed.

(** The loop completes when every iteration does, whatever the bound. *)
Lemma iterate_total_inv (P : St -> Prop) body :
  (forall i s, P s -> exists s', body i s = Ok s' /\ P s') ->
  forall n i s, P s -> exists s', iterate n i body s = Ok s' /\ P s'.
Proof.
  intros Hstep n. induction n as [|n IH]; intros i s Hs; simpl.
  - eauto.
  - destruct (Hstep i s Hs) as (r & -> & Hr). simpl. apply IH. exact Hr.
Qed.

End Loops.

Tactic Notation "step_bind" hyp(H) "as" simple_intropattern(a) ident(H1) ident(H2) :=
  apply bind_Ok in H; destruct H as (a & H1 & H2).

(** * Construction *)

Section Construction.
Context {E : Type} `{ElemTy E}.

(** What the [ConvLayer] constructor builds once both assertions hold and
    the stride is not zero: the emplace loop leaves everything but
    [filters_] as initialised. *)
Lemma ConvLayer_new_Ok (inp : Layer E) (D F S : Z) :
  S <> 0 ->
  exists L, ConvLayer.new (Some inp) D F S 0 = Ok L /\
    ConvLayer.input_ L = inp /\
    ConvLayer.bias_ L = reset 1 1 D /\
    ConvLayer.output_ L =
      reset (wrap (wrap (wrap (sx (getOutput inp) + wrap (0 * 2)) - F) / S + 1))
            (wrap (wrap (wrap (sy (getOutput inp) + wrap (0 * 2)) - F) / S + 1))
            D /\
    ConvLayer.filterSize_ L = F /\ ConvLayer.stride_ L = S /\
    ConvLayer.pad_ L = 0.
Proof.
  intros HS. unfold ConvLayer.new, Layer_dims, dims, udiv. simpl.
  destruct (S =? 0) eqn:HS0; [lia|]. simpl.
  match goal with
  | |- exists L, for_upto _ ?body ?s0 = _ /\ _ =>
      destruct (iterate_total_inv
                  (fun L => ConvLayer.input_ L = ConvLayer.input_ s0 /\
                            ConvLayer.bias_ L = ConvLayer.bias_ s0 /\
                            ConvLayer.output_ L = ConvLayer.output_ s0 /\
                            ConvLayer.filterSize_ L = F /\
                            ConvLayer.stride_ L = S /\
                            ConvLayer.pad_ L = 0)
                  body) with (n := Z.to_nat D) (i := 0) (s := s0)
        as (L & HL & Hinv)
  end.
  - intros i s Hs. eexists. split; [reflexivity|]. exact Hs.
  - simpl. tauto.
  - exists L. split; [exact HL|]. simpl in Hinv. exact Hinv.
Qed.

Lemma wrap_0 : wrap (0 * 2) = 0.
Proof. reflexivity. Qed.

(** C2. A [ConvLayer] constructed on a predecessor of spatial size
    [(W, Hi, Cin)] with filter size [F <= W], [F <= Hi], stride [S] and
    padding [0] has an output tensor shaped exactly
    [(floor((W + 2*0 - F)/S) + 1, floor((Hi + 2*0 - F)/S) + 1, D)].  The
    stride is not zero and the two extents are [size_t] values, as the
    dimensions of a tensor are. *)
Theorem ConvLayer_new_output_dims (inp : Layer E) (W Hi Cin D F S : Z) :
  Layer_dims inp = (W, Hi, Cin) ->
  is_size_t W -> is_size_t Hi ->
  0 <= F <= W -> F <= Hi -> 0 < S ->
  is_size_t ((W + 2 * 0 - F) / S + 1) ->
  is_size_t ((Hi + 2 * 0 - F) / S + 1) ->
  exists L, ConvLayer.new (Some inp) D F S 0 = Ok L /\
    dims (ConvLayer.output_ L) =
      ((W + 2 * 0 - F) / S + 1, (Hi + 2 * 0 - F) / S + 1, D).
Proof.
  intros Hd HW HH HF HFH HS HoW HoH.
  unfold Layer_dims, dims in Hd. injection Hd as HWe HHe _.
  destruct (ConvLayer_new_Ok inp D F S ltac:(lia))
    as (L & HL & _ & _ & Hout & _).
  exists L. split; [exact HL|]. rewrite Hout, HWe, HHe, wrap_0. simpl.
  replace (W + 2 * 0 - F) with (W - F) in * by lia.
  replace (Hi + 2 * 0 - F) with (Hi - F) in * by lia.
  rewrite !Z.add_0_r.
  rewrite (wrap_small W), (wrap_small Hi) by assumption.
  rewrite (wrap_small (W - F)), (wrap_small (Hi - F))
    by (unfold is_size_t in *; lia).
  rewrite !wrap_small by assumption. reflexivity.
Qed.

(** C6, as the code has it.  A filter larger than the predecessor's
    spatial extent is not rejected: with padding [0], a predecessor and a
    stride that is not zero the constructor completes, and the output
    tensor takes the extents that the [size_t] arithmetic of lines 56-57
    wraps around to. *)
Theorem ConvLayer_new_oversized_filter (inp : Layer E) (W Hi Cin D F S : Z) :
  Layer_dims inp = (W, Hi, Cin) ->
  is_size_t W -> is_size_t Hi -> is_size_t F -> 0 < S ->
  W < F \/ Hi < F ->
  exists L, ConvLayer.new (Some inp) D F S 0 = Ok L /\
    dims (ConvLayer.output_ L) =
      (wrap (wrap (W - F) / S + 1), wrap (wrap (Hi - F) / S + 1), D).
Proof.
  intros Hd HW HH HF HS _.
  unfold Layer_dims, dims in Hd. injection Hd as HWe HHe _.
  destruct (ConvLayer_new_Ok inp D F S ltac:(lia))
    as (L & HL & _ & _ & Hout & _).
  exists L. split; [exact HL|]. rewrite Hout, HWe, HHe, wrap_0. simpl.
  rewrite !Z.add_0_r.
  rewrite (wrap_small W), (wrap_small Hi) by assumption. reflexivity.
Qed.

(** C8. A [ConvLayer] asked for with a padding other than [0] or with a
    null predecessor, and a [FullyConnectedLayer] asked for with a null
    predecessor, end in a failed assertion: no layer object comes out. *)
Theorem construction_asserts :
  (forall (input : option (Layer E)) (D F S P : Z),
      P <> 0 ->
      ConvLayer.new input D F S P =
        Fault (AssertionFailed "Unsupported pad size")) /\
  (forall (D F S : Z),
      ConvLayer.new (E := E) None D F S 0 =
        Fault (AssertionFailed "Invalid input layer")) /\
  (forall (D : Z),
      FullyConnectedLayer.new (E := E) None D =
        Fault (AssertionFailed "Invalid input layer")).
Proof.
  split; [|split].
  - intros input D F S P HP. unfold ConvLayer.new, assert.
    destruct (P =? 0) eqn:HP0; [lia | reflexivity].
  - reflexivity.
  - reflexivity.
Qed.

End Construction.

(** * Forward pass: what is written and what is left alone *)

Section Frames.
Context {E : Type} `{ElemTy E}.

Lemma same_shape_refl (o : Array3D E) : same_shape o o.
Proof. unfold same_shape. auto. Qed.

Lemma same_shape_trans (o1 o2 o3 : Array3D E) :
  same_shape o1 o2 -> same_shape o2 o3 -> same_shape o1 o3.
Proof. unfold same_shape. intuition congruence. Qed.

Lemma deref_Ok {A : Type} (b : buffer) (o : option A) (a : A) :
  deref b o = Ok a -> o = Some a.
Proof. destruct o; simpl; congruence. Qed.

Lemma put_same_shape (o o' : Array3D E) (x y z : Z) (v : E) :
  put o x y z v = Some o' -> same_shape o o'.
Proof.
  unfold put. destruct (_ && _); [|discriminate]. intros [= <-].
  unfold same_shape. simpl. rewrite length_insert. auto.
Qed.

(** The same store into two tensors of one shape. *)
Lemma put_rel (final : list E) (o1 o2 o1' : Array3D E) (x y z : Z) (v : E) :
  same_shape o1 o2 -> cellwise final (data o1) (data o2) ->
  put o1 x y z v = Some o1' ->
  exists o2', put o2 x y z v = Some o2' /\ same_shape o1' o2' /\
              cellwise final (data o1') (data o2').
Proof.
  intros (Hx & Hy & Hz & Hlen) Hcell. unfold put, inRange, isInBounds, offset.
  rewrite Hx, Hy, Hz, Hlen.
  destruct (_ && _) eqn:Hin; [|discriminate]. intros [= <-].
  eexists. split; [reflexivity|]. split.
  - unfold same_shape. simpl. rewrite !length_insert. auto.
  - simpl. intros k. apply andb_prop in Hin as [_ Hlt].
    apply Nat.ltb_lt in Hlt.
    destruct (decide (k = Z.to_nat ((x * sy o1 + y) * sz o1 + z))) as [->|Hne].
    + left. rewrite !list_lookup_insert_eq by lia. reflexivity.
    + rewrite !list_lookup_insert_ne by congruence. apply Hcell.
Qed.

(** ** ConvLayer *)

Lemma window_sum_ext (a b : ConvLayer.t E) (cf ib : Array3D E) (inz x y : Z) :
  ConvLayer.filterSize_ b = ConvLayer.filterSize_ a ->
  same_shape (ConvLayer.output_ a) (ConvLayer.output_ b) ->
  ConvLayer.window_sum b cf ib inz x y = ConvLayer.window_sum a cf ib inz x y.
Proof.
  intros HF (Hx & Hy & _). unfold ConvLayer.window_sum, isInBounds.
  rewrite HF, Hx, Hy. reflexivity.
Qed.

Lemma conv_frame_refl (a : ConvLayer.t E) : conv_frame a a.
Proof. unfold conv_frame. repeat (split; [reflexivity|]). apply same_shape_refl. Qed.

Lemma conv_frame_trans (a b c : ConvLayer.t E) :
  conv_frame a b -> conv_frame b c -> conv_frame a c.
Proof.
  unfold conv_frame. intros (?&?&?&?&?&?&?) (?&?&?&?&?&?&?).
  repeat (split; [congruence|]). eapply same_shape_trans; eassumption.
Qed.

Lemma forward_row_rel (final : list E) (outy inz d ay y : Z) (cf : Array3D E)
    (a b a' : ConvLayer.t E) :
  conv_rel final a b ->
  ConvLayer.forward_row outy inz d ay y cf a = Ok a' ->
  exists b', ConvLayer.forward_row outy inz d ay y cf b = Ok b' /\
             conv_rel final a' b'.
Proof.
  intros Hab Hrun. unfold ConvLayer.forward_row in *.
  inv_bind Hrun. destruct r as [xa a1]. injection Hrunb as ->.
  unfold for_upto in *.
  eapply (iterate_rel
            (fun p q : Z * ConvLayer.t E => p.1 = q.1 /\ conv_rel final p.2 q.2))
    with (b := (0, b)) in Hruna as ([xb b'] & Hb' & _ & HR).
  - exists b'. rewrite Hb'. auto.
  - clear. intros ax [x1 s1] [x2 s2] [x1' s1'] [Hxx HR] Hstep.
    simpl in Hxx, HR. subst x2.
    destruct HR as [(Hi & Hf & Hb & HF & HS & HP & Hsh) Hcell].
    step_bind Hstep as sum Hsum Hstep.
    step_bind Hstep as bd Hbias Hstep.
    step_bind Hstep as o1' Hput1 Hstep.
    injection Hstep as <- <-.
    apply deref_Ok in Hput1.
    destruct (put_rel final _ _ _ _ _ _ _ Hsh Hcell Hput1)
      as (o2' & Hput & Hsh' & Hcell').
    exists (wrap (x1 + ConvLayer.stride_ s2), ConvLayer.set_output s2 o2').
    split.
    + rewrite Hi, (window_sum_ext s1 s2) by assumption.
      rewrite Hsum. simpl. rewrite Hb, Hbias. simpl.
      rewrite Hput. reflexivity.
    + simpl. split; [congruence|]. split; [|exact Hcell'].
      unfold conv_frame. simpl. auto 10.
  - simpl. auto.
Qed.

Lemma forward_slice_rel (final : list E) (outy inz d : Z)
    (a b a' : ConvLayer.t E) :
  conv_rel final a b ->
  ConvLayer.forward_slice outy inz d a = Ok a' ->
  exists b', ConvLayer.forward_slice outy inz d b = Ok b' /\
             conv_rel final a' b'.
Proof.
  intros Hab Hrun. unfold ConvLayer.forward_slice in *.
  step_bind Hrun as cf Hcf Hrun. step_bind Hrun as [ya a1] Hloop Hrun.
  injection Hrun as ->.
  assert (Hfil : ConvLayer.filters_ b = ConvLayer.filters_ a)
    by (destruct Hab as [(_ & Hf & _) _]; exact Hf).
  rewrite Hfil, Hcf. simpl. unfold for_upto in *.
  eapply (iterate_rel
            (fun p q : Z * ConvLayer.t E => p.1 = q.1 /\ conv_rel final p.2 q.2))
    with (b := (0, b)) in Hloop as ([yb b'] & Hb' & _ & HR).
  - exists b'. rewrite Hb'. auto.
  - clear. intros ay [y1 s1] [y2 s2] [y1' s1'] [Hyy HR] Hstep.
    simpl in Hyy, HR. subst y2.
    step_bind Hstep as s1r Hrow Hstep. injection Hstep as <- <-.
    destruct (forward_row_rel _ _ _ _ _ _ _ _ _ _ HR Hrow) as (s2' & Hrow2 & HR').
    exists (wrap (y1 + ConvLayer.stride_ s2'), s2'). split.
    + rewrite Hrow2. reflexivity.
    + simpl. split; [|exact HR'].
      destruct HR' as [(_ & _ & _ & _ & HS & _) _]. congruence.
  - simpl. auto.
Qed.

Lemma ConvLayer_forward_rel (final : list E) (a b a' : ConvLayer.t E) :
  conv_rel final a b ->
  ConvLayer.forward a = Ok a' ->
  exists b', ConvLayer.forward b = Ok b' /\ conv_rel final a' b'.
Proof.
  intros Hab Hrun. unfold ConvLayer.forward, Layer_dims, dims in *.
  destruct Hab as [Hfr Hcell].
  pose proof Hfr as (Hi & _ & _ & _ & _ & _ & Hx & Hy & Hz & _).
  rewrite Hi, Hy, Hz. unfold for_upto in *.
  eapply (iterate_rel (conv_rel final)) in Hrun as (b' & Hb' & HR).
  - exists b'. split; [exact Hb' | exact HR].
  - intros d s1 s2 s1' HR Hstep.
    exact (forward_slice_rel _ _ _ _ _ _ _ HR Hstep).
  - split; assumption.
Qed.

(** A completed forward pass leaves everything but the output's contents
    as it was. *)
Lemma ConvLayer_forward_frame (a a' : ConvLayer.t E) :
  ConvLayer.forward a = Ok a' -> conv_frame a a'.
Proof.
  intros Hrun.
  unfold ConvLayer.forward, Layer_dims, dims, for_upto in Hrun.
  eapply (iterate_inv (conv_frame a)); [| apply conv_frame_refl | exact Hrun].
  clear. intros d s s' Hs Hstep. eapply conv_frame_trans; [exact Hs|].
  unfold ConvLayer.forward_slice in Hstep.
  step_bind Hstep as cf Hcf Hstep. step_bind Hstep as [y1 s1] Hloop Hstep.
  injection Hstep as ->. unfold for_upto in Hloop.
  change s' with (y1, s').2.
  eapply (iterate_inv (fun p : Z * ConvLayer.t E => conv_frame s p.2));
    [| | exact Hloop]; [|apply conv_frame_refl].
  clear. intros ay [y s1] [y' s1'] Hs1 Hstep. simpl in *.
  step_bind Hstep as s2 Hrow Hstep. injection Hstep as <- <-.
  eapply conv_frame_trans; [exact Hs1|].
  unfold ConvLayer.forward_row in Hrow.
  step_bind Hrow as [x1 s3] Hloop Hrow. injection Hrow as ->.
  unfold for_upto in Hloop. change s2 with (x1, s2).2.
  eapply (iterate_inv (fun p : Z * ConvLayer.t E => conv_frame s1 p.2));
    [| | exact Hloop]; [|apply conv_frame_refl].
  clear. intros ax [x s] [x' s'] Hs Hstep. simpl in *.
  step_bind Hstep as sum Hsum Hstep. step_bind Hstep as bd Hbias Hstep.
  step_bind Hstep as o' Hput Hstep. injection Hstep as <- <-.
  apply deref_Ok, put_same_shape in Hput.
  eapply conv_frame_trans; [exact Hs|].
  unfold conv_frame. simpl. auto 10.
Qed.

(** ** FullyConnectedLayer *)

Lemma fc_frame_refl (a : FullyConnectedLayer.t E) : fc_frame a a.
Proof. unfold fc_frame. repeat (split; [reflexivity|]). apply same_shape_refl. Qed.

Lemma fc_frame_trans (a b c : FullyConnectedLayer.t E) :
  fc_frame a b -> fc_frame b c -> fc_frame a c.
Proof.
  unfold fc_frame. intros (?&?&?&?) (?&?&?&?).
  repeat (split; [congruence|]). eapply same_shape_trans; eassumption.
Qed.

Lemma forward_unit_rel (final : list E) (inx iny inz n i : Z)
    (a b a' : FullyConnectedLayer.t E) :
  fc_rel final a b ->
  FullyConnectedLayer.forward_unit inx iny inz n i a = Ok a' ->
  exists b', FullyConnectedLayer.forward_unit inx iny inz n i b = Ok b' /\
             fc_rel final a' b'.
Proof.
  intros [(Hi & Hf & Hb & Hsh) Hcell] Hrun.
  unfold FullyConnectedLayer.forward_unit in *.
  step_bind Hrun as cf Hcf Hrun. step_bind Hrun as [sum idx] Hdot Hrun.
  step_bind Hrun as u Hassert Hrun. step_bind Hrun as bd Hbias Hrun.
  step_bind Hrun as o1' Hput1 Hrun. injection Hrun as <-.
  apply deref_Ok in Hput1.
  destruct (put_rel final _ _ _ _ _ _ _ Hsh Hcell Hput1)
    as (o2' & Hput & Hsh' & Hcell').
  exists (FullyConnectedLayer.set_output b o2'). split.
  - rewrite Hf, Hcf. simpl. rewrite Hi, Hdot. simpl. rewrite Hassert. simpl.
    rewrite Hb, Hbias. simpl. rewrite Hput. reflexivity.
  - split; [|exact Hcell']. unfold fc_frame. simpl. auto.
Qed.

Lemma FullyConnectedLayer_forward_rel (final : list E)
    (a b a' : FullyConnectedLayer.t E) :
  fc_rel final a b ->
  FullyConnectedLayer.forward a = Ok a' ->
  exists b', FullyConnectedLayer.forward b = Ok b' /\ fc_rel final a' b'.
Proof.
  intros Hab Hrun.
  unfold FullyConnectedLayer.forward, Layer_dims, Layer_size, dims in *.
  pose proof Hab as [(Hi & _ & _ & Hx & Hy & Hz & _) _].
  rewrite Hi, Hz. unfold for_upto in *.
  eapply (iterate_rel (fc_rel final)) in Hrun as (b' & Hb' & HR).
  - exists b'. split; [exact Hb' | exact HR].
  - intros d s1 s2 s1' HR Hstep.
    exact (forward_unit_rel _ _ _ _ _ _ _ _ _ HR Hstep).
  - exact Hab.
Qed.

Lemma FullyConnectedLayer_forward_frame (a a' : FullyConnectedLayer.t E) :
  FullyConnectedLayer.forward a = Ok a' -> fc_frame a a'.
Proof.
  intros Hrun.
  unfold FullyConnectedLayer.forward, Layer_dims, Layer_size, dims, for_upto
    in Hrun.
  eapply (iterate_inv (fc_frame a)); [| apply fc_frame_refl | exact Hrun].
  clear. intros i s s' Hs Hstep. eapply fc_frame_trans; [exact Hs|].
  unfold FullyConnectedLayer.forward_unit in Hstep.
  step_bind Hstep as cf Hcf Hstep. step_bind Hstep as [sum idx] Hdot Hstep.
  step_bind Hstep as u Hassert Hstep. step_bind Hstep as bd Hbias Hstep.
  step_bind Hstep as o' Hput Hstep. injection Hstep as <-.
  apply deref_Ok, put_same_shape in Hput.
  unfold fc_frame. simpl. auto.
Qed.

(** A list is determined by its cells. *)
Lemma cellwise_final (d1 d2 : list E) : cellwise d1 d1 d2 -> d2 = d1.
Proof. intros Hc. apply list_eq. intros k. destruct (Hc k); assumption. Qed.

Lemma ConvLayer_forward_again (a a' : ConvLayer.t E) :
  ConvLayer.forward a = Ok a' -> ConvLayer.forward a' = Ok a'.
Proof.
  intros Hrun. pose proof (ConvLayer_forward_frame _ _ Hrun) as Hfr.
  assert (Hrel : conv_rel (data (ConvLayer.output_ a')) a a')
    by (split; [exact Hfr | intros k; auto]).
  destruct (ConvLayer_forward_rel _ _ _ _ Hrel Hrun) as (b & Hb & Hfr' & Hc).
  rewrite Hb. f_equal. apply cellwise_final in Hc.
  destruct Hfr' as (? & ? & ? & ? & ? & ? & ? & ? & ? & _).
  destruct a' as [i1 f1 b1 [x1 y1 z1 d1] F1 S1 P1],
           b as [i2 f2 b2 [x2 y2 z2 d2] F2 S2 P2].
  simpl in *. congruence.
Qed.

Lemma FullyConnectedLayer_forward_again (a a' : FullyConnectedLayer.t E) :
  FullyConnectedLayer.forward a = Ok a' ->
  FullyConnectedLayer.forward a' = Ok a'.
Proof.
  intros Hrun. pose proof (FullyConnectedLayer_forward_frame _ _ Hrun) as Hfr.
  assert (Hrel : fc_rel (data (FullyConnectedLayer.output_ a')) a a')
    by (split; [exact Hfr | intros k; auto]).
  destruct (FullyConnectedLayer_forward_rel _ _ _ _ Hrel Hrun)
    as (b & Hb & Hfr' & Hc).
  rewrite Hb. f_equal. apply cellwise_final in Hc.
  destruct Hfr' as (? & ? & ? & ? & ? & ? & _).
  destruct a' as [i1 f1 b1 [x1 y1 z1 d1]], b as [i2 f2 b2 [x2 y2 z2 d2]].
  simpl in *. congruence.
Qed.

(** C9. [forward()] of a [ConvLayer] and of a [FullyConnectedLayer] is a
    function of the predecessor's output, the filters and the bias: a
    second call, with those unchanged, ends exactly as the first one did,
    with the output tensor in the identical state. *)
Theorem forward_twice_is_forward_once :
  (forall L : ConvLayer.t E,
      ConvLayer.forward L ≫= ConvLayer.forward = ConvLayer.forward L) /\
  (forall L : FullyConnectedLayer.t E,
      FullyConnectedLayer.forward L ≫= FullyConnectedLayer.forward =
      FullyConnectedLayer.forward L).
Proof.
  split; intros L.
  - destruct (ConvLayer.forward L) as [L'|f] eqn:Hrun; simpl; [|reflexivity].
    exact (ConvLayer_forward_again _ _ Hrun).
  - destruct (FullyConnectedLayer.forward L) as [L'|f] eqn:Hrun; simpl;
      [|reflexivity].
    exact (FullyConnectedLayer_forward_again _ _ Hrun).
Qed.

(** X17. A call of [forward()] that returns has written nothing but the
    contents of the layer's own output tensor: the predecessor and its
    output, the filters, the bias and the hyperparameters are as before
    (and so are the output's dimensions).  Calls that do not return are
    not covered; a constructed [FullyConnectedLayer] returns only when it
    has no output unit. *)
Theorem forward_writes_only_output :
  (forall L L' : ConvLayer.t E,
      ConvLayer.forward L = Ok L' ->
      ConvLayer.input_ L' = ConvLayer.input_ L /\
      ConvLayer.filters_ L' = ConvLayer.filters_ L /\
      ConvLayer.bias_ L' = ConvLayer.bias_ L /\
      ConvLayer.filterSize_ L' = ConvLayer.filterSize_ L /\
      ConvLayer.stride_ L' = ConvLayer.stride_ L /\
      ConvLayer.pad_ L' = ConvLayer.pad_ L /\
      dims (ConvLayer.output_ L') = dims (ConvLayer.output_ L)) /\
  (forall L L' : FullyConnectedLayer.t E,
      FullyConnectedLayer.forward L = Ok L' ->
      FullyConnectedLayer.input_ L' = FullyConnectedLayer.input_ L /\
      FullyConnectedLayer.filters_ L' = FullyConnectedLayer.filters_ L /\
      FullyConnectedLayer.bias_ L' = FullyConnectedLayer.bias_ L /\
      dims (FullyConnectedLayer.output_ L') =
        dims (FullyConnectedLayer.output_ L)).
Proof.
  split; intros L L' Hrun.
  - destruct (ConvLayer_forward_frame _ _ Hrun)
      as (Hi & Hf & Hb & HF & HS & HP & Hx & Hy & Hz & _).
    unfold dims. rewrite Hx, Hy, Hz. auto 10.
  - destruct (FullyConnectedLayer_forward_frame _ _ Hrun)
      as (Hi & Hf & Hb & Hx & Hy & Hz & _).
    unfold dims. rewrite Hx, Hy, Hz. auto.
Qed.

End Frames.

(** * FullyConnectedLayer: the pass over the input *)

Section Flatten.
Context {E : Type} `{ElemTy E}.

Lemma flat_index_bound (inx iny inz x y z : Z) :
  0 <= x < inx -> 0 <= y < iny -> 0 <= z < inz ->
  0 <= (x * iny + y) * inz + z < inx * iny * inz.
Proof.
  intros Hx Hy Hz.
  assert (H0 : 0 <= x * iny) by (apply Z.mul_nonneg_nonneg; lia).
  assert (H1 : 0 <= (x * iny + y) * inz) by (apply Z.mul_nonneg_nonneg; lia).
  assert (H2 : (x + 1) * iny <= inx * iny)
    by (apply Z.mul_le_mono_nonneg_r; lia).
  assert (H3 : (x * iny + y + 1) * inz <= inx * iny * inz)
    by (apply Z.mul_le_mono_nonneg_r; lia).
  lia.
Qed.

(** The running index after the whole pass is the number of cells
    visited, whatever the buffers hold. *)
Lemma flatten_dot_count (ib cf : Array3D E) (inx iny inz : Z) (sum : E)
    (idx : Z) :
  is_size_t inx -> is_size_t iny -> is_size_t inz ->
  inx * iny * inz < size_modulus ->
  FullyConnectedLayer.flatten_dot ib cf inx iny inz = Ok (sum, idx) ->
  idx = inx * iny * inz.
Proof.
  intros Hx Hy Hz Hprod Hrun. unfold FullyConnectedLayer.flatten_dot in Hrun.
  change idx with (sum, idx).2. revert Hrun.
  apply (for_upto_counted (fun x st => st.2 = x * iny * inz));
    [exact Hx | | reflexivity].
  clear sum idx. intros x st st' Hxr Hst.
  replace ((x + 1) * iny * inz) with ((x * iny + iny) * inz) by lia.
  apply (for_upto_counted (fun y st => st.2 = (x * iny + y) * inz));
    [exact Hy | | rewrite Hst; lia].
  clear st st' Hst. intros y st st' Hyr Hst.
  replace ((x * iny + (y + 1)) * inz) with ((x * iny + y) * inz + inz) by lia.
  apply (for_upto_counted (fun z st => st.2 = (x * iny + y) * inz + z));
    [exact Hz | | rewrite Hst; lia].
  clear st st' Hst. intros z [s i] [s' i'] Hzr Hst Hrun. simpl in *.
  step_bind Hrun as v Hv Hrun. step_bind Hrun as w Hw Hrun.
  injection Hrun as <- <-. subst i.
  pose proof (flat_index_bound inx iny inz x y z Hxr Hyr Hzr).
  rewrite wrap_small by (unfold is_size_t; lia). lia.
Qed.

(** The pass completes on a well-formed input and a weight vector of
    [numInputs] elements. *)
Lemma flatten_dot_total (ib cf : Array3D E) :
  Array3D_wf ib -> Array3D_wf cf -> dims cf = (1, 1, size ib) ->
  exists sum, FullyConnectedLayer.flatten_dot ib cf (sx ib) (sy ib) (sz ib)
              = Ok (sum, size ib).
Proof.
  intros (Hx & Hy & Hz & Hprod & Hlen) (_ & _ & Hcz & Hcprod & Hclen) Hcd.
  unfold dims in Hcd. injection Hcd as Hc1 Hc2 Hc3.
  assert (Hnn : 0 <= sx ib * sy ib * sz ib).
  { unfold is_size_t in *. repeat apply Z.mul_nonneg_nonneg; lia. }
  assert (Hsize : size ib = sx ib * sy ib * sz ib).
  { unfold size. apply wrap_small. unfold is_size_t. lia. }
  assert (Hcsize : size cf = sx ib * sy ib * sz ib).
  { unfold size. rewrite Hc1, Hc2, Hc3, Hsize.
    replace (1 * 1 * (sx ib * sy ib * sz ib)) with (sx ib * sy ib * sz ib)
      by lia.
    apply wrap_small. unfold is_size_t. lia. }
  rewrite Hc1, Hc2, Hc3, Hsize in Hclen.
  unfold FullyConnectedLayer.flatten_dot. rewrite Hsize.
  match goal with
  | |- exists sum, ?run = Ok (sum, ?p) =>
      enough (exists st : E * Z, run = Ok st /\ st.2 = p)
        as ([sum idx] & Hrun & Hidx)
        by (simpl in Hidx; subst idx; exists sum; exact Hrun)
  end.
  apply (for_upto_total (fun x (st : E * Z) => st.2 = x * sy ib * sz ib));
    [exact Hx | | reflexivity].
  intros x st Hxr Hst.
  replace ((x + 1) * sy ib * sz ib) with ((x * sy ib + sy ib) * sz ib) by lia.
  apply (for_upto_total (fun y (st : E * Z) => st.2 = (x * sy ib + y) * sz ib));
    [exact Hy | | rewrite Hst; lia].
  clear st Hst. intros y st Hyr Hst.
  replace ((x * sy ib + (y + 1)) * sz ib)
    with ((x * sy ib + y) * sz ib + sz ib) by lia.
  apply (for_upto_total
           (fun z (st : E * Z) => st.2 = (x * sy ib + y) * sz ib + z));
    [exact Hz | | rewrite Hst; lia].
  clear st Hst. intros z [s i] Hzr Hst. simpl in Hst. subst i.
  pose proof (flat_index_bound _ _ _ x y z Hxr Hyr Hzr) as Hb.
  assert (Hget : is_Some (get ib x y z)).
  { unfold get, inRange, isInBounds, offset.
    replace (_ && _) with true
      by (symmetry; repeat (apply andb_true_intro; split); lia).
    apply lookup_lt_is_Some. lia. }
  assert (Hgetf : is_Some (get_flat cf ((x * sy ib + y) * sz ib + z))).
  { unfold get_flat. rewrite Hcsize.
    replace (_ && _) with true
      by (symmetry; apply andb_true_intro; split; lia).
    apply lookup_lt_is_Some. lia. }
  destruct Hget as [v ->], Hgetf as [w ->]. simpl.
  eexists. split; [reflexivity|]. simpl.
  rewrite wrap_small by (unfold is_size_t; lia). lia.
Qed.

Lemma deref_Fault {A : Type} (b : buffer) (o : option A) (f : fault) :
  deref b o = Fault f -> f = OutOfBounds b.
Proof. destruct o; simpl; congruence. Qed.

(** The pass can only end early on an access out of range. *)
Lemma flatten_dot_Fault (ib cf : Array3D E) (inx iny inz : Z) (f : fault) :
  FullyConnectedLayer.flatten_dot ib cf inx iny inz = Fault f ->
  exists b, f = OutOfBounds b.
Proof.
  unfold FullyConnectedLayer.flatten_dot, for_upto.
  apply (iterate_fault (fun f => exists b, f = OutOfBounds b)).
  intros x st g.
  apply (iterate_fault (fun f => exists b, f = OutOfBounds b)).
  clear. intros y st g.
  apply (iterate_fault (fun f => exists b, f = OutOfBounds b)).
  clear. intros z [sum idx] g Hrun.
  apply bind_Fault in Hrun as [Hf | (v & _ & Hrun)];
    [apply deref_Fault in Hf; eauto|].
  apply bind_Fault in Hrun as [Hf | (w & _ & Hrun)];
    [apply deref_Fault in Hf; eauto | discriminate].
Qed.

(** C7. In [FullyConnectedLayer::forward()], for a predecessor whose
    tensor keeps the invariant that its size is the product of its
    dimensions: the pass over the input of any output unit that runs to
    its end has read [inx * iny * inz] elements, which is [numInputs]; on
    a weight vector of [numInputs] elements it does run to its end; and
    no call of [forward()] ends in the failed assertion
    [idx == numInputs]. *)
Theorem flatten_reads_numInputs (L : FullyConnectedLayer.t E) :
  let ib := getOutput (FullyConnectedLayer.input_ L) in
  let numInputs := Layer_size (FullyConnectedLayer.input_ L) in
  Array3D_wf ib ->
  numInputs = sx ib * sy ib * sz ib /\
  (forall (cf : Array3D E) (sum : E) (idx : Z),
      FullyConnectedLayer.flatten_dot ib cf (sx ib) (sy ib) (sz ib)
        = Ok (sum, idx) ->
      idx = numInputs) /\
  (forall cf : Array3D E,
      Array3D_wf cf -> dims cf = (1, 1, numInputs) ->
      exists sum,
        FullyConnectedLayer.flatten_dot ib cf (sx ib) (sy ib) (sz ib)
          = Ok (sum, numInputs)) /\
  (forall msg : string,
      FullyConnectedLayer.forward L <> Fault (AssertionFailed msg)).
Proof.
  intros ib numInputs Hwf. pose proof Hwf as (Hx & Hy & Hz & Hprod & Hlen).
  assert (Hnum : numInputs = sx ib * sy ib * sz ib).
  { unfold numInputs, Layer_size, size. fold ib. apply wrap_small.
    unfold is_size_t in *. split; [|lia].
    repeat apply Z.mul_nonneg_nonneg; lia. }
  split; [exact Hnum|]. split; [|split].
  - intros cf sum idx Hrun. rewrite Hnum.
    eapply flatten_dot_count; eassumption.
  - intros cf Hcf Hd. apply flatten_dot_total; assumption.
  - intros msg Hrun.
    unfold FullyConnectedLayer.forward, Layer_dims, dims, for_upto in Hrun.
    fold ib numInputs in Hrun.
    eapply (iterate_fault (fun f => forall m, f <> AssertionFailed m));
      [| exact Hrun | reflexivity].
    clear Hrun msg. intros i s f Hrun m.
    unfold FullyConnectedLayer.forward_unit in Hrun.
    apply bind_Fault in Hrun as [Hf | (cf & _ & Hrun)];
      [apply deref_Fault in Hf; congruence|].
    apply bind_Fault in Hrun as [Hf | ([sum idx] & Hdot & Hrun)];
      [apply flatten_dot_Fault in Hf as [b ->]; congruence|].
    apply flatten_dot_count in Hdot; [|assumption..].
    rewrite <- Hnum in Hdot. subst idx. rewrite Z.eqb_refl in Hrun.
    simpl in Hrun.
    apply bind_Fault in Hrun as [Hf | (bd & _ & Hrun)];
      [apply deref_Fault in Hf; congruence|].
    apply bind_Fault in Hrun as [Hf | (o & _ & Hrun)];
      [apply deref_Fault in Hf; congruence | discriminate].
Qed.

(** X14. The store of line 156 is addressed at [(1, 1, i)]: on an output
    tensor shaped [(1, 1, D)], as the constructor shapes it, with
    [D >= 1], no call of [forward()] returns. *)
Lemma FullyConnectedLayer_forward_never_returns
    (L L' : FullyConnectedLayer.t E) :
  sx (FullyConnectedLayer.output_ L) <= 1 ->
  0 < sz (FullyConnectedLayer.output_ L) ->
  FullyConnectedLayer.forward L <> Ok L'.
Proof.
  intros Hsx Hsz Hrun.
  unfold FullyConnectedLayer.forward, Layer_dims, dims, for_upto in Hrun.
  destruct (Z.to_nat (sz (FullyConnectedLayer.output_ L))) as [|n] eqn:Hn;
    [lia|].
  simpl in Hrun. step_bind Hrun as L1 Hunit Hrun. clear Hrun.
  unfold FullyConnectedLayer.forward_unit in Hunit.
  step_bind Hunit as cf Hcf Hunit. step_bind Hunit as [sum idx] Hdot Hunit.
  step_bind Hunit as u Hassert Hunit. step_bind Hunit as bd Hbias Hunit.
  step_bind Hunit as o Hput Hunit. apply deref_Ok in Hput.
  unfold put, inRange, isInBounds in Hput.
  destruct (1 <? sx (FullyConnectedLayer.output_ L)) eqn:H1; [lia|].
  simpl in Hput. discriminate.
Qed.

End Flatten.

(** * The worked scenarios *)

Section Scenarios.

Ltac by_evaluation :=
  first [ reflexivity
        | apply Z.leb_le; vm_compute; reflexivity
        | apply Z.ltb_lt; vm_compute; reflexivity ].

Ltac size_t_bounds :=
  unfold is_size_t, size_modulus;
  first [ lia | by_evaluation | split; by_evaluation ].

(** C1. Where the code leaves the claim.  Line 83 bounds the column loop
    by the output's height.  On a 2x1x1 input with a 1x1 filter of weight
    one, stride 1 and bias zero the output is 2x1x1 and only column 0 is
    stored: cell [(1,0,0)] keeps whatever [m1] it held, where bias plus
    the window at [(1,0)] is [5].  On the 1x2x1 input the output is 1x2x1
    and the store of a second column leaves the tensor. *)
Theorem ConvLayer_forward_column_bound :
  (exists L0,
      ConvLayer.new (Some wide_2x1) 1 1 1 0 = Ok L0 /\
      dims (ConvLayer.output_ L0) = (2, 1, 1) /\
      forall m0 m1 : Z, exists L',
        ConvLayer.forward (conv_loaded L0 [[1]] [0] [m0; m1]) = Ok L' /\
        get (ConvLayer.output_ L') 0 0 0 = Some 3 /\
        get (ConvLayer.output_ L') 1 0 0 = Some m1) /\
  (exists L0,
      ConvLayer.new (Some tall_1x2) 1 1 1 0 = Ok L0 /\
      dims (ConvLayer.output_ L0) = (1, 2, 1) /\
      forall m0 m1 : Z,
        ConvLayer.forward (conv_loaded L0 [[1]] [0] [m0; m1])
          = Fault (OutOfBounds OutputBuffer)).
Proof.
  split.
  - eexists. split; [vm_compute; reflexivity|]. split; [reflexivity|].
    intros m0 m1. eexists. split; [vm_compute; reflexivity|].
    split; reflexivity.
  - eexists. split; [vm_compute; reflexivity|]. split; [reflexivity|].
    intros m0 m1. vm_compute. reflexivity.
Qed.

(** C3. Where the code leaves the claim.  Line 156 stores at
    [(1, 1, i)] of an output shaped [(1, 1, D)].  With one unit over the
    input [3; 5], weights one and bias zero, the store is out of range and
    the call does not return; the claim has [8] stored in element 0. *)
Theorem FullyConnectedLayer_forward_store_out_of_range :
  exists L0,
    FullyConnectedLayer.new (Some wide_2x1) 1 = Ok L0 /\
    fc_loaded L0 [[1; 1]] [0] [0] = fc_wide /\
    dims (FullyConnectedLayer.output_ fc_wide) = (1, 1, 1) /\
    inRange (FullyConnectedLayer.output_ fc_wide) 1 1 0 = false /\
    FullyConnectedLayer.forward fc_wide = Fault (OutOfBounds OutputBuffer).
Proof.
  eexists. split; [vm_compute; reflexivity|].
  repeat split; vm_compute; reflexivity.
Qed.

(** C4. Where the code leaves the claim.  The guard of line 92 asks the
    output tensor, not the input.  A 1x1x1 predecessor with filter size 2
    and stride [2^63] is given a 2x2x1 output; the tap at [(1, 0)] passes
    the guard and [inputBuffer.get(1, 0, 0)] is read outside the input.
    On the 5x5 scenario the tap at [(3, 0)] is inside the input and
    fails the guard. *)
Theorem ConvLayer_forward_guard_is_on_output :
  (exists L0,
      ConvLayer.new (Some single_1x1) 1 2 (2 ^ 63) 0 = Ok L0 /\
      dims (ConvLayer.output_ L0) = (2, 2, 1) /\
      isInBounds (ConvLayer.output_ L0) 1 0 = true /\
      isInBounds (getOutput (ConvLayer.input_ L0)) 1 0 = false /\
      ConvLayer.forward L0 = Fault (OutOfBounds InputBuffer)) /\
  isInBounds (getOutput (ConvLayer.input_ conv_5x5)) 3 0 = true /\
  isInBounds (ConvLayer.output_ conv_5x5) 3 0 = false.
Proof.
  split; [|split; reflexivity].
  eexists. split; [vm_compute; reflexivity|].
  repeat split; vm_compute; reflexivity.
Qed.

(** C5. Where the code leaves the claim.  On the 5x5 input of ones with
    filter size 3, stride 1, no padding, one filter of ones and bias zero,
    the output is 3x3x1 but only element [(0,0,0)] is [9]: the taps
    beyond column or row 2 of the input are dropped by the guard of
    line 92, and element [(1,1,0)] is [4]. *)
Theorem ConvLayer_forward_5x5_ones :
  exists L0,
    ConvLayer.new (Some ones_5x5) 1 3 1 0 = Ok L0 /\
    conv_loaded L0 [replicate 9 1] [0] (replicate 9 0) = conv_5x5 /\
    ConvLayer.forward conv_5x5 = Ok conv_5x5_after /\
    ConvLayer.output_ conv_5x5_after
      = mkArray3D 3 3 1 [9; 6; 3; 6; 4; 2; 3; 2; 1] /\
    get (ConvLayer.output_ conv_5x5_after) 1 1 0 = Some 4.
Proof.
  eexists. split; [vm_compute; reflexivity|].
  repeat split; vm_compute; reflexivity.
Qed.

(** C6, as the spec has it, fails: a filter of size 3 on a 2x2x1
    predecessor, stride 1 and no padding, is constructed, with an output
    tensor shaped [(0, 0, 1)]. *)
Lemma oversized_filter_is_constructed :
  sx (getOutput square_2x2) < 3 /\
  (exists L, ConvLayer.new (Some square_2x2) 1 3 1 0 = Ok L /\
             dims (ConvLayer.output_ L) = (0, 0, 1)) /\
  ~ (exists f, ConvLayer.new (Some square_2x2) 1 3 1 0 = Fault f).
Proof.
  split; [reflexivity|]. split.
  - eexists. split; [vm_compute; reflexivity | reflexivity].
  - intros [f Hf]. vm_compute in Hf. discriminate.
Qed.

(** ** Instances *)

(** A 7x5x2 predecessor, four filters of size 3, stride 2: output 3x2x4. *)
Lemma ConvLayer_new_output_dims_witness :
  (Layer_dims zeros_7x5x2 = (7, 5, 2) /\ is_size_t 7 /\ is_size_t 5 /\
   0 <= 3 <= 7 /\ 3 <= 5 /\ 0 < 2 /\
   is_size_t ((7 + 2 * 0 - 3) / 2 + 1) /\
   is_size_t ((5 + 2 * 0 - 3) / 2 + 1)) /\
  exists L, ConvLayer.new (Some zeros_7x5x2) 4 3 2 0 = Ok L /\
            dims (ConvLayer.output_ L) = (3, 2, 4).
Proof.
  split; [repeat split; try reflexivity; size_t_bounds|].
  apply (ConvLayer_new_output_dims zeros_7x5x2 7 5 2 4 3 2);
    try reflexivity; try size_t_bounds.
Defined.

(** A 2x2x1 predecessor and a filter of size 3, stride 1: output 0x0x1. *)
Lemma ConvLayer_new_oversized_filter_witness :
  (Layer_dims square_2x2 = (2, 2, 1) /\ is_size_t 2 /\ is_size_t 3 /\
   0 < 1 /\ 2 < 3) /\
  exists L, ConvLayer.new (Some square_2x2) 1 3 1 0 = Ok L /\
            dims (ConvLayer.output_ L) = (0, 0, 1).
Proof.
  split; [repeat split; try reflexivity; size_t_bounds|].
  apply (ConvLayer_new_oversized_filter square_2x2 2 2 1 1 3 1);
    try reflexivity; try size_t_bounds.
Defined.

(** Padding 1 on the 5x5 predecessor. *)
Lemma construction_asserts_witness :
  1 <> 0 /\
  ConvLayer.new (Some ones_5x5) 1 3 1 1
    = Fault (AssertionFailed "Unsupported pad size").
Proof.
  split; [lia|].
  apply (proj1 (construction_asserts (E := Z)) (Some ones_5x5) 1 3 1 1). lia.
Defined.

(** The 5x5 scenario, and a fully connected layer without units. *)
Lemma forward_writes_only_output_witness :
  (ConvLayer.forward conv_5x5 = Ok conv_5x5_after /\
   FullyConnectedLayer.forward fc_empty = Ok fc_empty) /\
  (ConvLayer.input_ conv_5x5_after = ConvLayer.input_ conv_5x5 /\
   ConvLayer.filters_ conv_5x5_after = ConvLayer.filters_ conv_5x5 /\
   ConvLayer.bias_ conv_5x5_after = ConvLayer.bias_ conv_5x5 /\
   ConvLayer.filterSize_ conv_5x5_after = ConvLayer.filterSize_ conv_5x5 /\
   ConvLayer.stride_ conv_5x5_after = ConvLayer.stride_ conv_5x5 /\
   ConvLayer.pad_ conv_5x5_after = ConvLayer.pad_ conv_5x5 /\
   dims (ConvLayer.output_ conv_5x5_after)
     = dims (ConvLayer.output_ conv_5x5)) /\
  (FullyConnectedLayer.input_ fc_empty = FullyConnectedLayer.input_ fc_empty /\
   FullyConnectedLayer.filters_ fc_empty
     = FullyConnectedLayer.filters_ fc_empty /\
   FullyConnectedLayer.bias_ fc_empty = FullyConnectedLayer.bias_ fc_empty /\
   dims (FullyConnectedLayer.output_ fc_empty)
     = dims (FullyConnectedLayer.output_ fc_empty)).
Proof.
  assert (Hc : ConvLayer.forward conv_5x5 = Ok conv_5x5_after)
    by (vm_compute; reflexivity).
  assert (Hf : FullyConnectedLayer.forward fc_empty = Ok fc_empty)
    by (vm_compute; reflexivity).
  split; [split; assumption|]. split.
  - exact (proj1 (forward_writes_only_output (E := Z)) _ _ Hc).
  - exact (proj2 (forward_writes_only_output (E := Z)) _ _ Hf).
Defined.

(** One unit over the input [3; 5]: two elements are read. *)
Lemma flatten_reads_numInputs_witness :
  Array3D_wf (getOutput (FullyConnectedLayer.input_ fc_wide)) /\
  Layer_size (FullyConnectedLayer.input_ fc_wide) = 2 /\
  (exists sum,
      FullyConnectedLayer.flatten_dot
        (getOutput (FullyConnectedLayer.input_ fc_wide))
        (mkArray3D 1 1 2 [1; 1]) 2 1 1 = Ok (sum, 2)) /\
  forall msg : string,
    FullyConnectedLayer.forward fc_wide <> Fault (AssertionFailed msg).
Proof.
  assert (Hwf : Array3D_wf (getOutput (FullyConnectedLayer.input_ fc_wide))).
  { unfold Array3D_wf. simpl. repeat split; try size_t_bounds. }
  split; [exact Hwf|].
  destruct (flatten_reads_numInputs fc_wide Hwf) as (Hn & _ & Ht & Ha).
  split; [exact Hn|]. split; [|exact Ha].
  apply (Ht (mkArray3D 1 1 2 [1; 1])); [|reflexivity].
  unfold Array3D_wf. simpl. repeat split; try size_t_bounds.
Defined.

End Scenarios.

(** * Construction, in full *)

Section ConstructionState.
Context {E : Type} `{ElemTy E}.

Lemma is_size_t_1 : is_size_t 1.
Proof. unfold is_size_t, size_modulus. lia. Qed.

Lemma reset_wf (x y z : Z) :
  is_size_t x -> is_size_t y -> is_size_t z -> x * y * z < size_modulus ->
  Array3D_wf (reset (E := E) x y z).
Proof.
  intros Hx Hy Hz Hp. unfold Array3D_wf, reset. simpl.
  repeat (split; [assumption|]). rewrite length_replicate.
  assert (0 <= x * y * z)
    by (unfold is_size_t in *; repeat apply Z.mul_nonneg_nonneg; lia).
  lia.
Qed.

(** The loop of lines 62-64: [n] filters of one shape are appended. *)
Lemma ConvLayer_emplace_loop (f : Array3D E) (n : nat) (i : Z)
    (s : ConvLayer.t E) :
  iterate n i (fun _ self => Ok (ConvLayer.emplace_filter self f)) s
  = Ok {| ConvLayer.input_ := ConvLayer.input_ s;
          ConvLayer.filters_ := ConvLayer.filters_ s ++ replicate n f;
          ConvLayer.bias_ := ConvLayer.bias_ s;
          ConvLayer.output_ := ConvLayer.output_ s;
          ConvLayer.filterSize_ := ConvLayer.filterSize_ s;
          ConvLayer.stride_ := ConvLayer.stride_ s;
          ConvLayer.pad_ := ConvLayer.pad_ s |}.
Proof.
  revert i s. induction n as [|n IH]; intros i s; simpl.
  - rewrite app_nil_r. destruct s; reflexivity.
  - rewrite IH. simpl. rewrite <- app_assoc. reflexivity.
Qed.

(** The loop of lines 129-131. *)
Lemma FullyConnectedLayer_emplace_loop (f : Array3D E) (n : nat) (i : Z)
    (s : FullyConnectedLayer.t E) :
  iterate n i (fun _ self => Ok (FullyConnectedLayer.emplace_filter self f)) s
  = Ok {| FullyConnectedLayer.input_ := FullyConnectedLayer.input_ s;
          FullyConnectedLayer.filters_ :=
            FullyConnectedLayer.filters_ s ++ replicate n f;
          FullyConnectedLayer.bias_ := FullyConnectedLayer.bias_ s;
          FullyConnectedLayer.output_ := FullyConnectedLayer.output_ s |}.
Proof.
  revert i s. induction n as [|n IH]; intros i s; simpl.
  - rewrite app_nil_r. destruct s; reflexivity.
  - rewrite IH. simpl. rewrite <- app_assoc. reflexivity.
Qed.

(** The constructor of [ConvLayer] in closed form, for padding [0], a
    predecessor and a stride that is not zero. *)
Lemma ConvLayer_new_eq (inp : Layer E) (D F S : Z) :
  S <> 0 ->
  ConvLayer.new (Some inp) D F S 0
  = Ok {| ConvLayer.input_ := inp;
          ConvLayer.filters_ :=
            replicate (Z.to_nat D) (reset F F (sz (getOutput inp)));
          ConvLayer.bias_ := reset 1 1 D;
          ConvLayer.output_ :=
            reset (wrap (wrap (sx (getOutput inp) - F) / S + 1))
                  (wrap (wrap (sy (getOutput inp) - F) / S + 1)) D;
          ConvLayer.filterSize_ := F; ConvLayer.stride_ := S;
          ConvLayer.pad_ := 0 |}.
Proof.
  intros HS. unfold ConvLayer.new, Layer_dims, dims, udiv, for_upto. simpl.
  destruct (S =? 0) eqn:HS0; [lia|]. simpl.
  rewrite ConvLayer_emplace_loop. simpl.
  change (wrap (0 * 2)) with 0. rewrite !Z.add_0_r.
  unfold wrap. rewrite !Zminus_mod_idemp_l. reflexivity.
Qed.

Lemma is_size_t_wrap (z : Z) : is_size_t (wrap z).
Proof. unfold is_size_t, wrap, size_modulus. apply Z.mod_pos_bound. lia. Qed.

Lemma ConvLayer_new_Ok_stride (inp : Layer E) (D F S P : Z)
    (L : ConvLayer.t E) :
  ConvLayer.new (Some inp) D F S P = Ok L -> S <> 0.
Proof.
  intros HL ->. unfold ConvLayer.new, assert, Layer_dims, dims in HL.
  destruct (P =? 0); simpl in HL; discriminate.
Qed.

(** The constructor of [FullyConnectedLayer] in closed form. *)
Lemma FullyConnectedLayer_new_eq (inp : Layer E) (D : Z) :
  FullyConnectedLayer.new (Some inp) D
  = Ok {| FullyConnectedLayer.input_ := inp;
          FullyConnectedLayer.filters_ :=
            replicate (Z.to_nat D) (reset 1 1 (Layer_size inp));
          FullyConnectedLayer.bias_ := reset 1 1 D;
          FullyConnectedLayer.output_ := reset 1 1 D |}.
Proof.
  unfold FullyConnectedLayer.new, for_upto.
  rewrite FullyConnectedLayer_emplace_loop. reflexivity.
Qed.

(** X1. The constructor of [ConvLayer] returns a layer exactly when the
    padding is [0], the predecessor is not null and the stride is not
    zero; nothing else about its arguments is checked. *)
Theorem ConvLayer_new_returns_iff (input : option (Layer E)) (D F S P : Z) :
  (exists L, ConvLayer.new input D F S P = Ok L) <->
  P = 0 /\ input <> None /\ S <> 0.
Proof.
  split.
  - intros [L HL]. unfold ConvLayer.new, assert in HL.
    destruct (P =? 0) eqn:HP; [|discriminate]. simpl in HL.
    destruct input as [inp|]; [|discriminate].
    destruct (Layer_dims inp) as [[inx iny] inz].
    unfold udiv in HL. destruct (S =? 0) eqn:HS; [discriminate|].
    repeat split; [lia | discriminate | lia].
  - intros (-> & Hin & HS). destruct input as [inp|]; [|congruence].
    rewrite ConvLayer_new_eq by exact HS. eauto.
Qed.

(** X2. A constructed [ConvLayer] holds its arguments as members, a bias
    shaped [(1, 1, D)] and exactly [D] filters, each shaped
    [(F, F, Cin)] for a predecessor of depth [Cin]. *)
Theorem ConvLayer_new_members (inp : Layer E) (D F S : Z) (L : ConvLayer.t E) :
  ConvLayer.new (Some inp) D F S 0 = Ok L ->
  ConvLayer.input_ L = inp /\
  ConvLayer.filterSize_ L = F /\ ConvLayer.stride_ L = S /\
  ConvLayer.pad_ L = 0 /\
  dims (ConvLayer.bias_ L) = (1, 1, D) /\
  length (ConvLayer.filters_ L) = Z.to_nat D /\
  forall cf, cf ∈ ConvLayer.filters_ L ->
             dims cf = (F, F, sz (getOutput inp)).
Proof.
  intros HL. pose proof (ConvLayer_new_Ok_stride _ _ _ _ _ _ HL) as HS.
  rewrite ConvLayer_new_eq in HL by exact HS. injection HL as <-. simpl.
  repeat (split; [reflexivity|]). split; [apply length_replicate|].
  intros cf Hcf. apply elem_of_replicate in Hcf as [-> _]. reflexivity.
Qed.

Lemma ConvLayer_new_establishes_inv (inp : Layer E) (D F S : Z) (L : ConvLayer.t E) :
  ConvLayer.new (Some inp) D F S 0 = Ok L ->
  Array3D_wf (getOutput inp) -> is_size_t D -> is_size_t F ->
  F * F * sz (getOutput inp) < size_modulus ->
  sx (ConvLayer.output_ L) * sy (ConvLayer.output_ L) * D < size_modulus ->
  ConvLayer_inv L.
Proof.
  intros HL Hwf HD HF HFp Hop.
  pose proof (ConvLayer_new_Ok_stride _ _ _ _ _ _ HL) as HS.
  rewrite ConvLayer_new_eq in HL by exact HS. injection HL as <-.
  simpl in Hop. pose proof Hwf as (_ & _ & Hz & _).
  unfold ConvLayer_inv. simpl.
  split; [exact Hwf|]. split.
  { apply reset_wf; auto using is_size_t_wrap. }
  split.
  { apply reset_wf; auto using is_size_t_1. unfold is_size_t in HD. lia. }
  split; [reflexivity|]. split; [exact HF|].
  split; [apply length_replicate|].
  apply Forall_replicate. split; [|reflexivity].
  apply reset_wf; assumption.
Qed.

Lemma ConvLayer_new_extents (inp : Layer E) (D F S : Z)
    (L : ConvLayer.t E) :
  ConvLayer.new (Some inp) D F S 0 = Ok L ->
  is_size_t (sx (getOutput inp)) -> is_size_t (sy (getOutput inp)) ->
  1 <= F -> F <= sx (getOutput inp) -> F <= sy (getOutput inp) -> 1 <= S ->
  1 <= sx (ConvLayer.output_ L) <= sx (getOutput inp) /\
  1 <= sy (ConvLayer.output_ L) <= sy (getOutput inp) /\
  (sy (getOutput inp) <= sx (getOutput inp) ->
   sy (ConvLayer.output_ L) <= sx (ConvLayer.output_ L)).
Proof.
  intros HL HW HH HF1 HFW HFH HS.
  rewrite ConvLayer_new_eq in HL by lia. injection HL as <-. simpl.
  set (W := sx (getOutput inp)) in *. set (Hh := sy (getOutput inp)) in *.
  unfold is_size_t in *.
  assert (Hdiv : forall a, 0 <= a -> 0 <= a / S <= a).
  { intros a Ha. split; [apply Z.div_pos; lia|].
    apply Z.div_le_upper_bound; [lia | nia]. }
  rewrite (wrap_small (W - F)), (wrap_small (Hh - F))
    by (unfold is_size_t; lia).
  pose proof (Hdiv (W - F) ltac:(lia)). pose proof (Hdiv (Hh - F) ltac:(lia)).
  rewrite !wrap_small by (unfold is_size_t; lia).
  split; [lia|]. split; [lia|].
  intros HHW. apply Z.add_le_mono_r. apply Z.div_le_mono; lia.
Qed.

(** X3. For a well-formed predecessor and sizes that the buffers can have
    (the element counts of a filter and of the output are [size_t]
    values), a constructed [ConvLayer] satisfies the class invariant. *)
Theorem ConvLayer_new_inv (inp : Layer E) (D F S : Z) (L : ConvLayer.t E) :
  ConvLayer.new (Some inp) D F S 0 = Ok L ->
  Array3D_wf (getOutput inp) -> is_size_t D -> is_size_t F ->
  F * F * sz (getOutput inp) < size_modulus ->
  sx (ConvLayer.output_ L) * sy (ConvLayer.output_ L) * D < size_modulus ->
  ConvLayer_inv L.
Proof. apply ConvLayer_new_establishes_inv. Qed.

(** X4. With filter size [1 <= F <= W], [F <= H] and stride [S >= 1] the
    output of a constructed [ConvLayer] is not empty and no larger than
    the input in either direction, and it is at least as wide as it is
    high when the input is. *)
Theorem ConvLayer_new_extent_bounds (inp : Layer E) (D F S : Z)
    (L : ConvLayer.t E) :
  ConvLayer.new (Some inp) D F S 0 = Ok L ->
  is_size_t (sx (getOutput inp)) -> is_size_t (sy (getOutput inp)) ->
  1 <= F -> F <= sx (getOutput inp) -> F <= sy (getOutput inp) -> 1 <= S ->
  1 <= sx (ConvLayer.output_ L) <= sx (getOutput inp) /\
  1 <= sy (ConvLayer.output_ L) <= sy (getOutput inp) /\
  (sy (getOutput inp) <= sx (getOutput inp) ->
   sy (ConvLayer.output_ L) <= sx (ConvLayer.output_ L)).
Proof. apply ConvLayer_new_extents. Qed.

(** X5. The constructor of [FullyConnectedLayer] returns for every
    predecessor: output and bias are shaped [(1, 1, D)] and there are [D]
    weight vectors, each shaped [(1, 1, numInputs)], [numInputs] being
    the size of the predecessor. *)
Theorem FullyConnectedLayer_new_state (inp : Layer E) (D : Z) :
  exists L,
    FullyConnectedLayer.new (Some inp) D = Ok L /\
    FullyConnectedLayer.input_ L = inp /\
    dims (FullyConnectedLayer.output_ L) = (1, 1, D) /\
    dims (FullyConnectedLayer.bias_ L) = (1, 1, D) /\
    length (FullyConnectedLayer.filters_ L) = Z.to_nat D /\
    (forall cf, cf ∈ FullyConnectedLayer.filters_ L ->
                dims cf = (1, 1, Layer_size inp)).
Proof.
  rewrite FullyConnectedLayer_new_eq. eexists. split; [reflexivity|]. simpl.
  repeat (split; [reflexivity|]). split; [apply length_replicate|].
  intros cf Hcf. apply elem_of_replicate in Hcf as [-> _]. reflexivity.
Qed.

(** X6. For a well-formed predecessor and a [size_t] unit count, a
    constructed [FullyConnectedLayer] satisfies the class invariant. *)
Theorem FullyConnectedLayer_new_inv (inp : Layer E) (D : Z)
    (L : FullyConnectedLayer.t E) :
  FullyConnectedLayer.new (Some inp) D = Ok L ->
  Array3D_wf (getOutput inp) -> is_size_t D ->
  FullyConnectedLayer_inv L.
Proof.
  intros HL Hwf HD. rewrite FullyConnectedLayer_new_eq in HL.
  injection HL as <-. unfold FullyConnectedLayer_inv. simpl.
  assert (HwfD : Array3D_wf (reset (E := E) 1 1 D)).
  { apply reset_wf; auto using is_size_t_1. unfold is_size_t in HD. lia. }
  split; [exact Hwf|]. split; [exact HwfD|].
  do 2 (split; [reflexivity|]). split; [exact HwfD|].
  split; [reflexivity|]. split; [apply length_replicate|].
  apply Forall_replicate. split; [|reflexivity].
  unfold Layer_size, size.
  apply reset_wf; auto using is_size_t_1, is_size_t_wrap.
  pose proof (is_size_t_wrap (sx (getOutput inp) * sy (getOutput inp)
                              * sz (getOutput inp))) as Hw.
  unfold is_size_t in Hw. lia.
Qed.

End ConstructionState.

(** * Cells of a tensor *)

Section Cells.
Context {E : Type} `{ElemTy E}.

Lemma inRange_spec (t : Array3D E) (x y z : Z) :
  inRange t x y z = true <->
  0 <= x < sx t /\ 0 <= y < sy t /\ 0 <= z < sz t.
Proof.
  unfold inRange, isInBounds. rewrite !andb_true_iff.
  rewrite !Z.leb_le, !Z.ltb_lt. lia.
Qed.

Lemma offset_inj (t : Array3D E) (x y z x' y' z' : Z) :
  inRange t x y z = true -> inRange t x' y' z' = true ->
  offset t x y z = offset t x' y' z' -> x = x' /\ y = y' /\ z = z'.
Proof.
  rewrite !inRange_spec. unfold offset. intros Hr Hr' Hoff.
  assert (H0 : 0 <= x * sy t + y) by nia.
  assert (H0' : 0 <= x' * sy t + y') by nia.
  apply Z2Nat.inj in Hoff; [|nia..].
  destruct (Z.div_mod_unique (sz t) (x * sy t + y) (x' * sy t + y') z z')
    as [Hq Hz]; [lia | lia | lia |].
  destruct (Z.div_mod_unique (sy t) x x' y y') as [Hx Hy]; [lia | lia | lia |].
  auto.
Qed.

Lemma get_Some_inRange (t : Array3D E) (x y z : Z) (v : E) :
  get t x y z = Some v -> inRange t x y z = true.
Proof. unfold get. destruct (inRange t x y z); [auto | discriminate]. Qed.

(** A store is read back. *)
Lemma get_put_same (t t' : Array3D E) (x y z : Z) (v : E) :
  put t x y z v = Some t' -> get t' x y z = Some v.
Proof.
  unfold put. destruct (inRange t x y z) eqn:Hr; [|discriminate]. simpl.
  destruct (_ <? _)%nat eqn:Hlt; [|discriminate]. intros [= <-].
  apply Nat.ltb_lt in Hlt. unfold get, inRange, isInBounds, offset. simpl.
  unfold inRange, isInBounds in Hr. rewrite Hr.
  apply list_lookup_insert_eq. exact Hlt.
Qed.

(** A store leaves every other cell as it was. *)
Lemma get_put_other (t t' : Array3D E) (x y z x' y' z' : Z) (v : E) :
  put t x y z v = Some t' -> (x', y', z') <> (x, y, z) ->
  get t' x' y' z' = get t x' y' z'.
Proof.
  unfold put. destruct (inRange t x y z) eqn:Hr; [|discriminate]. simpl.
  destruct (_ <? _)%nat eqn:Hlt; [|discriminate]. intros [= <-] Hne.
  unfold get. change (inRange _ x' y' z') with (inRange t x' y' z').
  destruct (inRange t x' y' z') eqn:Hr'; [|reflexivity]. simpl.
  change (offset _ x' y' z') with (offset t x' y' z').
  apply list_lookup_insert_ne. intros Heq.
  destruct (offset_inj t x y z x' y' z' Hr Hr' Heq) as (-> & -> & ->).
  congruence.
Qed.

End Cells.

(** * ConvLayer: what a returned forward pass has stored *)

Section ConvStored.
Context {E : Type} `{ElemTy E}.
Implicit Types (L s : ConvLayer.t E).

Lemma wrap_step (a b : Z) : wrap (wrap a + b) = wrap (a + b).
Proof. unfold wrap. apply Zplus_mod_idemp_l. Qed.

Lemma stored_where_ext L (done done' : Z -> Z -> Z -> Prop) (o : Array3D E) :
  (forall x y z, done' x y z <-> done x y z) ->
  stored_where L done o -> stored_where L done' o.
Proof.
  intros Heq Hst x y z. destruct (Hst x y z) as [Hd Hn].
  split; intros Hx; [apply Hd | apply Hn]; rewrite <- Heq; exact Hx.
Qed.

(** One more cell stored with its computed value. *)
Lemma stored_where_put L (done done' : Z -> Z -> Z -> Prop)
    (o o' : Array3D E) (ax ay d : Z) (v : E) :
  stored_where L done o ->
  put o ax ay d v = Some o' -> conv_cell L ax ay d = Ok v ->
  (forall x y z, done' x y z <-> done x y z \/ (x = ax /\ y = ay /\ z = d)) ->
  stored_where L done' o'.
Proof.
  intros Hst Hput Hcell Heq x y z.
  destruct (decide ((x, y, z) = (ax, ay, d))) as [[= -> -> ->]|Hne].
  - split.
    + intros _. exists v. split; [exact Hcell|].
      eapply get_put_same. exact Hput.
    + intros Hn. exfalso. apply Hn. apply Heq. auto.
  - rewrite (get_put_other _ _ _ _ _ _ _ _ _ Hput Hne).
    destruct (Hst x y z) as [Hd Hn]. split.
    + intros Hx. apply Hd. apply Heq in Hx as [Hx | (-> & -> & ->)];
        [exact Hx | congruence].
    + intros Hx. apply Hn. intros Hdone. apply Hx, Heq. auto.
Qed.

(** The computed value of a cell as seen from a state that shares the
    frame of [L]. *)
Lemma conv_cell_frame L s (cf : Array3D E) (ax ay d : Z) (sum b : E) :
  conv_frame L s ->
  ConvLayer.filters_ L !! Z.to_nat d = Some cf ->
  ConvLayer.window_sum s cf (getOutput (ConvLayer.input_ s))
    (sz (getOutput (ConvLayer.input_ L)))
    (wrap (ax * ConvLayer.stride_ L)) (wrap (ay * ConvLayer.stride_ L))
    = Ok sum ->
  get_flat (ConvLayer.bias_ s) d = Some b ->
  conv_cell L ax ay d = Ok (add sum b).
Proof.
  intros (Hi & _ & Hb & HF & _ & _ & Hsh) Hcf Hsum Hbias.
  unfold conv_cell. rewrite Hcf. simpl.
  rewrite <- (window_sum_ext L s) by assumption.
  rewrite Hi in Hsum. rewrite Hsum. simpl.
  rewrite Hb in Hbias. rewrite Hbias. reflexivity.
Qed.

Lemma forward_row_stored L s s' (d ay : Z) (cf : Array3D E) :
  let outy := sy (ConvLayer.output_ L) in
  is_size_t outy -> 0 <= ay ->
  ConvLayer.filters_ L !! Z.to_nat d = Some cf ->
  conv_frame L s ->
  stored_where L (done_row outy d ay) (ConvLayer.output_ s) ->
  ConvLayer.forward_row outy (sz (getOutput (ConvLayer.input_ L))) d ay
    (wrap (ay * ConvLayer.stride_ L)) cf s = Ok s' ->
  conv_frame L s' /\
  stored_where L (done_row outy d (ay + 1)) (ConvLayer.output_ s').
Proof.
  intros outy Houty Hay Hcf Hfr Hst Hrun. unfold ConvLayer.forward_row in Hrun.
  step_bind Hrun as [x1 s1] Hloop Hrun. injection Hrun as ->.
  pose (P := fun (ax : Z) (p : Z * ConvLayer.t E) =>
               p.1 = wrap (ax * ConvLayer.stride_ L) /\ conv_frame L p.2 /\
               stored_where L (done_col outy d ay ax) (ConvLayer.output_ p.2)).
  assert (Hp : P outy (x1, s')).
  { revert Hloop. apply (for_upto_counted P); [exact Houty | |].
    - clear s s' x1 Hfr Hst.
      intros ax [x s] [x' s'] Hax (Hx & Hfr & Hst) Hstep.
      simpl in Hx, Hfr, Hst. subst x.
      step_bind Hstep as sum Hsum Hstep. step_bind Hstep as b Hbias Hstep.
      step_bind Hstep as o Hput Hstep. injection Hstep as <- <-.
      apply deref_Ok in Hbias, Hput.
      pose proof Hfr as (Hi & Hf & Hb & HF & HS & HP & Hsh).
      split; [|split]; simpl.
      + rewrite HS, wrap_step. f_equal. lia.
      + eapply conv_frame_trans; [exact Hfr|].
        apply put_same_shape in Hput. unfold conv_frame. simpl. auto 10.
      + eapply stored_where_put; [exact Hst | exact Hput | |].
        * eapply conv_cell_frame; eassumption.
        * intros x y z. unfold done_col, done_row, done_slice. lia.
    - split; [reflexivity|]. split; [exact Hfr|]. simpl.
      eapply stored_where_ext; [|exact Hst].
      intros x y z. unfold done_col, done_row, done_slice. lia. }
  destruct Hp as (_ & Hfr' & Hst'). simpl in Hfr', Hst'.
  split; [exact Hfr'|]. eapply stored_where_ext; [|exact Hst'].
  intros x y z. unfold done_col, done_row, done_slice. lia.
Qed.

Lemma forward_slice_stored L s s' (d : Z) :
  let outy := sy (ConvLayer.output_ L) in
  is_size_t outy -> 0 <= d ->
  conv_frame L s ->
  stored_where L (done_slice outy d) (ConvLayer.output_ s) ->
  ConvLayer.forward_slice outy (sz (getOutput (ConvLayer.input_ L))) d s
    = Ok s' ->
  conv_frame L s' /\
  stored_where L (done_slice outy (d + 1)) (ConvLayer.output_ s').
Proof.
  intros outy Houty Hd Hfr Hst Hrun. unfold ConvLayer.forward_slice in Hrun.
  step_bind Hrun as cf Hcf Hrun. step_bind Hrun as [y1 s1] Hloop Hrun.
  injection Hrun as ->. apply deref_Ok in Hcf.
  assert (HcfL : ConvLayer.filters_ L !! Z.to_nat d = Some cf).
  { destruct Hfr as (_ & Hf & _). rewrite <- Hf. exact Hcf. }
  clear Hcf.
  pose (P := fun (ay : Z) (p : Z * ConvLayer.t E) =>
               p.1 = wrap (ay * ConvLayer.stride_ L) /\ conv_frame L p.2 /\
               stored_where L (done_row outy d ay) (ConvLayer.output_ p.2)).
  assert (Hp : P outy (y1, s')).
  { revert Hloop. apply (for_upto_counted P); [exact Houty | |].
    - clear s s' y1 Hfr Hst.
      intros ay [y s] [y' s'] Hay (Hy & Hfr & Hst) Hstep.
      simpl in Hy, Hfr, Hst. subst y.
      step_bind Hstep as s1 Hrow Hstep. injection Hstep as <- <-.
      destruct (forward_row_stored L s s1 d ay cf Houty ltac:(lia) HcfL Hfr
                  Hst Hrow) as [Hfr' Hst'].
      split; [|split; assumption]. simpl.
      destruct Hfr' as (_ & _ & _ & _ & HS & _).
      rewrite HS, wrap_step. f_equal. lia.
    - split; [reflexivity|]. split; [exact Hfr|]. simpl.
      eapply stored_where_ext; [|exact Hst].
      intros x y z. unfold done_row, done_slice. lia. }
  destruct Hp as (_ & Hfr' & Hst'). simpl in Hfr', Hst'.
  split; [exact Hfr'|]. eapply stored_where_ext; [|exact Hst'].
  intros x y z. unfold done_row, done_slice. lia.
Qed.

(** After a forward pass that returns, the cells of the square
    [0 <= x, y < outy] of every slice hold their computed values and all
    other cells are as before. *)
Lemma ConvLayer_forward_stored L L' :
  is_size_t (sy (ConvLayer.output_ L)) ->
  is_size_t (sz (ConvLayer.output_ L)) ->
  ConvLayer.forward L = Ok L' ->
  stored_where L
    (done_slice (sy (ConvLayer.output_ L)) (sz (ConvLayer.output_ L)))
    (ConvLayer.output_ L').
Proof.
  intros Houty Houtz Hrun.
  unfold ConvLayer.forward, Layer_dims, dims in Hrun.
  pose (P := fun (d : Z) (s : ConvLayer.t E) =>
               conv_frame L s /\
               stored_where L (done_slice (sy (ConvLayer.output_ L)) d)
                 (ConvLayer.output_ s)).
  assert (Hp : P (sz (ConvLayer.output_ L)) L').
  { revert Hrun. apply (for_upto_counted P); [exact Houtz | |].
    - intros d s s' Hd [Hfr Hst] Hstep.
      exact (forward_slice_stored L s s' d Houty ltac:(lia) Hfr Hst Hstep).
    - split; [apply conv_frame_refl|].
      intros x y z. unfold done_slice. split; [lia | reflexivity]. }
  exact (proj2 Hp).
Qed.

End ConvStored.

(** * ConvLayer: when the forward pass returns *)

Section ConvReturns.
Context {E : Type} `{ElemTy E}.
Implicit Types (L s : ConvLayer.t E) (t : Array3D E).

Lemma get_is_Some t (x y z : Z) :
  Array3D_wf t -> inRange t x y z = true -> is_Some (get t x y z).
Proof.
  intros (_ & _ & _ & _ & Hlen) Hr. unfold get. rewrite Hr.
  apply inRange_spec in Hr as (Hx & Hy & Hz).
  pose proof (flat_index_bound _ _ _ x y z Hx Hy Hz).
  apply lookup_lt_is_Some. unfold offset. lia.
Qed.

Lemma put_is_Some t (x y z : Z) (v : E) :
  Array3D_wf t -> inRange t x y z = true -> is_Some (put t x y z v).
Proof.
  intros (_ & _ & _ & _ & Hlen) Hr. unfold put. rewrite Hr. simpl.
  apply inRange_spec in Hr as (Hx & Hy & Hz).
  pose proof (flat_index_bound _ _ _ x y z Hx Hy Hz).
  destruct (_ <? _)%nat eqn:Hlt; [eauto|].
  apply Nat.ltb_ge in Hlt. unfold offset in Hlt. lia.
Qed.

Lemma get_flat_is_Some t (i : Z) :
  Array3D_wf t -> 0 <= i < sx t * sy t * sz t -> is_Some (get_flat t i).
Proof.
  intros (_ & _ & _ & Hp & Hlen) Hi. unfold get_flat, size.
  rewrite wrap_small by (unfold is_size_t; lia).
  replace (_ && _) with true
    by (symmetry; apply andb_true_intro; split; lia).
  apply lookup_lt_is_Some. lia.
Qed.

Lemma same_shape_wf (o1 o2 : Array3D E) :
  same_shape o1 o2 -> Array3D_wf o1 -> Array3D_wf o2.
Proof.
  intros (Hx & Hy & Hz & Hl). unfold Array3D_wf.
  rewrite Hx, Hy, Hz, Hl. auto.
Qed.

Lemma isInBounds_spec t (x y : Z) :
  isInBounds t x y = true <-> 0 <= x < sx t /\ 0 <= y < sy t.
Proof.
  unfold isInBounds. rewrite !andb_true_iff, !Z.leb_le, !Z.ltb_lt. lia.
Qed.

(** The window of lines 86-99 is summed to its end when the filter has the
    shape of the layer and the output is no larger than the input. *)
Lemma window_sum_total s (cf ib : Array3D E) (x y : Z) :
  Array3D_wf ib -> Array3D_wf cf ->
  dims cf = (ConvLayer.filterSize_ s, ConvLayer.filterSize_ s, sz ib) ->
  is_size_t (ConvLayer.filterSize_ s) ->
  sx (ConvLayer.output_ s) <= sx ib -> sy (ConvLayer.output_ s) <= sy ib ->
  exists sum, ConvLayer.window_sum s cf ib (sz ib) x y = Ok sum.
Proof.
  intros Hib Hcf Hd HF Hsx Hsy. unfold dims in Hd. injection Hd as Hc1 Hc2 Hc3.
  pose proof Hib as (_ & _ & Hz & _).
  enough (Hl : exists sum,
            ConvLayer.window_sum s cf ib (sz ib) x y = Ok sum /\ True)
    by (destruct Hl as (sum & Hsum & _); eauto).
  unfold ConvLayer.window_sum.
  apply (for_upto_total (fun _ (_ : E) => True)); [exact HF | | exact I].
  intros fy sum0 Hfy _.
  apply (for_upto_total (fun _ (_ : E) => True)); [exact HF | | exact I].
  intros fx sum1 Hfx _. simpl.
  destruct (isInBounds _ _ _) eqn:Hg; [|eauto].
  apply isInBounds_spec in Hg as [Hox Hoy].
  unfold ConvLayer.accumulate_depth.
  apply (for_upto_total (fun _ (_ : E) => True)); [exact Hz | | exact I].
  intros fd sum2 Hfd _.
  destruct (get_is_Some cf fx fy fd Hcf) as [w ->].
  { apply inRange_spec. lia. }
  destruct (get_is_Some ib (wrap (x + fx)) (wrap (y + fy)) fd Hib) as [v ->].
  { apply inRange_spec. lia. }
  simpl. eauto.
Qed.

Section Ready.
Variable L : ConvLayer.t E.
Hypothesis Hinv : ConvLayer_inv L.
Hypothesis Hwide :
  sy (ConvLayer.output_ L) <= sx (ConvLayer.output_ L).
Hypothesis Hfit_x :
  sx (ConvLayer.output_ L) <= sx (getOutput (ConvLayer.input_ L)).
Hypothesis Hfit_y :
  sy (ConvLayer.output_ L) <= sy (getOutput (ConvLayer.input_ L)).

Lemma forward_row_total s (d ay y : Z) (cf : Array3D E) :
  conv_frame L s ->
  0 <= d < sz (ConvLayer.output_ L) -> 0 <= ay < sy (ConvLayer.output_ L) ->
  Array3D_wf cf ->
  dims cf = (ConvLayer.filterSize_ L, ConvLayer.filterSize_ L,
             sz (getOutput (ConvLayer.input_ L))) ->
  exists s',
    ConvLayer.forward_row (sy (ConvLayer.output_ L))
      (sz (getOutput (ConvLayer.input_ L))) d ay y cf s = Ok s' /\
    conv_frame L s'.
Proof.
  intros Hfr Hd Hay Hcf Hcfd.
  destruct Hinv as (Hib & Hout & Hbias & Hbd & HF & _).
  pose proof Hout as (_ & Hsy & _).
  unfold ConvLayer.forward_row.
  match goal with
  | |- exists s', ?loop ≫= _ = Ok s' /\ _ =>
      enough (Hl : exists p, loop = Ok p /\
                     (fun (_ : Z) (p : Z * ConvLayer.t E) => conv_frame L p.2)
                       (sy (ConvLayer.output_ L)) p)
        by (destruct Hl as ([x1 s1] & -> & Hfr1); simpl; eauto)
  end.
  apply (for_upto_total
           (fun (_ : Z) (p : Z * ConvLayer.t E) => conv_frame L p.2));
    [exact Hsy | | exact Hfr].
  clear s Hfr. intros ax [x s] Hax Hfr. simpl in Hfr.
  pose proof Hfr as (Hi & Hf & Hb & HFs & HS & HP & Hsh).
  pose proof Hsh as (Hx' & Hy' & Hz' & _).
  destruct (window_sum_total s cf (getOutput (ConvLayer.input_ L)) x y)
    as [sum Hsum]; try assumption; try (rewrite HFs; assumption); try lia.
  rewrite Hi, Hsum. simpl.
  destruct (get_flat_is_Some (ConvLayer.bias_ L) d Hbias) as [b Hb'].
  { unfold dims in Hbd. injection Hbd as -> -> ->. lia. }
  rewrite Hb, Hb'. simpl.
  destruct (put_is_Some (ConvLayer.output_ s) ax ay d (add sum b))
    as [o Ho].
  { eapply same_shape_wf; eassumption. }
  { apply inRange_spec. lia. }
  rewrite Ho. simpl. eexists. split; [reflexivity|]. simpl.
  eapply conv_frame_trans; [exact Hfr|].
  apply put_same_shape in Ho. unfold conv_frame. simpl. auto 10.
Qed.

Lemma forward_slice_total s (d : Z) :
  conv_frame L s -> 0 <= d < sz (ConvLayer.output_ L) ->
  exists s',
    ConvLayer.forward_slice (sy (ConvLayer.output_ L))
      (sz (getOutput (ConvLayer.input_ L))) d s = Ok s' /\
    conv_frame L s'.
Proof.
  intros Hfr Hd.
  pose proof Hinv as (Hib & Hout & Hbias & Hbd & HF & Hlen & Hall).
  pose proof Hout as (_ & Hsy & _).
  unfold ConvLayer.forward_slice.
  destruct (lookup_lt_is_Some_2 (ConvLayer.filters_ L) (Z.to_nat d))
    as [cf Hcf]; [lia|].
  pose proof (proj1 (Forall_lookup _ _) Hall _ _ Hcf) as [Hcfwf Hcfd].
  pose proof Hfr as (_ & Hf & _). rewrite Hf, Hcf. simpl.
  match goal with
  | |- exists s', ?loop ≫= _ = Ok s' /\ _ =>
      enough (Hl : exists p, loop = Ok p /\
                     (fun (_ : Z) (p : Z * ConvLayer.t E) => conv_frame L p.2)
                       (sy (ConvLayer.output_ L)) p)
        by (destruct Hl as ([y1 s1] & -> & Hfr1); simpl; eauto)
  end.
  apply (for_upto_total
           (fun (_ : Z) (p : Z * ConvLayer.t E) => conv_frame L p.2));
    [exact Hsy | | exact Hfr].
  clear s Hfr Hf. intros ay [y s] Hay Hfr. simpl in Hfr.
  destruct (forward_row_total s d ay y cf Hfr Hd Hay Hcfwf Hcfd)
    as (s' & Hrow & Hfr').
  rewrite Hrow. simpl. eauto.
Qed.

Lemma ConvLayer_forward_total : exists L', ConvLayer.forward L = Ok L'.
Proof.
  pose proof Hinv as (_ & (_ & _ & Hsz & _) & _).
  unfold ConvLayer.forward, Layer_dims, dims.
  enough (Hl : exists L',
            for_upto (sz (ConvLayer.output_ L))
              (fun d self =>
                 ConvLayer.forward_slice (sy (ConvLayer.output_ L))
                   (sz (getOutput (ConvLayer.input_ L))) d self) L = Ok L' /\
            (fun (_ : Z) s => conv_frame L s) (sz (ConvLayer.output_ L)) L')
    by (destruct Hl as (L' & Hrun & _); eauto).
  apply (for_upto_total (fun (_ : Z) s => conv_frame L s));
    [exact Hsz | | apply conv_frame_refl].
  intros d s Hd Hfr. apply forward_slice_total; assumption.
Qed.

End Ready.

End ConvReturns.

(** * ConvLayer: the forward pass, in full *)

Section ConvForward.
Context {E : Type} `{ElemTy E}.

(** X7. After a call of [ConvLayer::forward()] that returns, every cell
    [(ax, ay, d)] with [ax] and [ay] below the output's height and [d]
    below its depth holds the bias of slice [d] added to the window sum
    of filter [d] anchored at [(ax * stride, ay * stride)], and every
    other cell of the output tensor holds what it held before the call. *)
Theorem ConvLayer_forward_cells (L L' : ConvLayer.t E) :
  let outy := sy (ConvLayer.output_ L) in
  let outz := sz (ConvLayer.output_ L) in
  ConvLayer.forward L = Ok L' ->
  is_size_t outy -> is_size_t outz ->
  (forall ax ay d,
      0 <= ax < outy -> 0 <= ay < outy -> 0 <= d < outz ->
      exists v, conv_cell L ax ay d = Ok v /\
                get (ConvLayer.output_ L') ax ay d = Some v) /\
  (forall x y z,
      ~ (0 <= x < outy /\ 0 <= y < outy /\ 0 <= z < outz) ->
      get (ConvLayer.output_ L') x y z = get (ConvLayer.output_ L) x y z).
Proof.
  intros outy outz Hrun Hy Hz.
  pose proof (ConvLayer_forward_stored L L' Hy Hz Hrun) as Hst.
  split.
  - intros ax ay d Hax Hay Hd. apply (proj1 (Hst ax ay d)).
    unfold done_slice. fold outy outz. lia.
  - intros x y z Hn. apply (proj2 (Hst x y z)).
    unfold done_slice. fold outy outz. lia.
Qed.

(** X8. On an output tensor that is narrower than it is high and has at
    least one slice, [ConvLayer::forward()] never returns: the column
    loop runs up to the height and stores outside the tensor. *)
Theorem ConvLayer_forward_narrow_output (L L' : ConvLayer.t E) :
  is_size_t (sy (ConvLayer.output_ L)) ->
  is_size_t (sz (ConvLayer.output_ L)) ->
  0 <= sx (ConvLayer.output_ L) < sy (ConvLayer.output_ L) ->
  0 < sz (ConvLayer.output_ L) ->
  ConvLayer.forward L <> Ok L'.
Proof.
  intros Hy Hz Hnarrow Hdepth Hrun.
  pose proof (ConvLayer_forward_stored L L' Hy Hz Hrun) as Hst.
  destruct (proj1 (Hst (sx (ConvLayer.output_ L)) 0 0)) as (v & _ & Hget).
  { unfold done_slice. lia. }
  apply get_Some_inRange, inRange_spec in Hget.
  destruct (ConvLayer_forward_frame _ _ Hrun)
    as (_ & _ & _ & _ & _ & _ & Hx & _).
  lia.
Qed.

(** X9. Under the class invariant, on an output tensor that is at least
    as wide as it is high and no larger than the input in width and
    height, [ConvLayer::forward()] returns. *)
Theorem ConvLayer_forward_returns (L : ConvLayer.t E) :
  ConvLayer_inv L ->
  sy (ConvLayer.output_ L) <= sx (ConvLayer.output_ L) ->
  sx (ConvLayer.output_ L) <= sx (getOutput (ConvLayer.input_ L)) ->
  sy (ConvLayer.output_ L) <= sy (getOutput (ConvLayer.input_ L)) ->
  exists L', ConvLayer.forward L = Ok L'.
Proof. apply ConvLayer_forward_total. Qed.

(** X10. [ConvLayer::forward()] keeps the class invariant. *)
Theorem ConvLayer_forward_keeps_inv (L L' : ConvLayer.t E) :
  ConvLayer.forward L = Ok L' -> ConvLayer_inv L -> ConvLayer_inv L'.
Proof.
  intros Hrun (Hib & Hout & Hbias & Hbd & HF & Hlen & Hall).
  destruct (ConvLayer_forward_frame _ _ Hrun)
    as (Hi & Hf & Hb & HFs & _ & _ & Hsh).
  pose proof Hsh as (_ & _ & Hz & _).
  unfold ConvLayer_inv. rewrite Hi, Hf, Hb, HFs, Hz.
  repeat (split; [assumption|]).
  split; [eapply same_shape_wf; eassumption|].
  repeat (split; [assumption|]). assumption.
Qed.

End ConvForward.

(** * Where a forward pass can stop *)

Section Faults.
Context {E : Type} `{ElemTy E}.

(** A fault of the loop is a fault of an iteration that was entered in a
    state reached by the iterations before it. *)
Lemma iterate_fault_inv {St : Type} (P : St -> Prop) (Q : fault -> Prop)
    (body : Z -> St -> result St) :
  (forall i s s', P s -> body i s = Ok s' -> P s') ->
  (forall i s f, P s -> body i s = Fault f -> Q f) ->
  forall n i s f, P s -> iterate n i body s = Fault f -> Q f.
Proof.
  intros Hstep Hfault n. induction n as [|n IH]; intros i s f Hs Hrun;
    simpl in Hrun; [discriminate|].
  apply bind_Fault in Hrun as [Hf | (s' & Hs' & Hf)]; eauto.
Qed.

Lemma iterate_fault_counted {St : Type} (Q : fault -> Prop)
    (body : Z -> St -> result St) :
  forall n i s f,
    0 <= i -> i + Z.of_nat n <= size_modulus ->
    (forall j t g, i <= j < i + Z.of_nat n -> body j t = Fault g -> Q g) ->
    iterate n i body s = Fault f -> Q f.
Proof.
  induction n as [|n IH]; intros i s f Hi Hn Hfault Hrun; simpl in Hrun;
    [discriminate|].
  apply bind_Fault in Hrun as [Hf | (s' & _ & Hf)].
  - eapply Hfault; [|exact Hf]. lia.
  - destruct n as [|n]; [discriminate|].
    rewrite wrap_small in Hf by (unfold is_size_t; lia).
    eapply IH; [| | | exact Hf]; [lia | lia |].
    intros j t g Hj. apply Hfault. lia.
Qed.

Lemma for_upto_fault_counted {St : Type} (Q : fault -> Prop) (hi : Z)
    (body : Z -> St -> result St) (s : St) (f : fault) :
  is_size_t hi ->
  (forall j t g, 0 <= j < hi -> body j t = Fault g -> Q g) ->
  for_upto hi body s = Fault f -> Q f.
Proof.
  unfold for_upto, is_size_t. intros Hhi Hfault Hrun.
  eapply iterate_fault_counted; [| | | exact Hrun]; [lia | lia |].
  intros j t g Hj. apply Hfault. lia.
Qed.

(** The window of lines 86-99 never reads outside the input when the
    extent the guard tests is within the input's. *)
Lemma window_sum_fault (s : ConvLayer.t E) (cf ib : Array3D E) (x y : Z)
    (f : fault) :
  Array3D_wf ib ->
  sx (ConvLayer.output_ s) <= sx ib -> sy (ConvLayer.output_ s) <= sy ib ->
  ConvLayer.window_sum s cf ib (sz ib) x y = Fault f ->
  f <> OutOfBounds InputBuffer.
Proof.
  intros Hib Hsx Hsy. pose proof Hib as (_ & _ & Hz & _).
  unfold ConvLayer.window_sum, for_upto at 1.
  apply (iterate_fault (fun f => f <> OutOfBounds InputBuffer)).
  intros fy sum0 g. unfold for_upto at 1.
  apply (iterate_fault (fun f => f <> OutOfBounds InputBuffer)).
  intros fx sum1 g'. simpl.
  destruct (isInBounds _ _ _) eqn:Hg; [|discriminate].
  apply isInBounds_spec in Hg as [Hox Hoy].
  unfold ConvLayer.accumulate_depth.
  apply (for_upto_fault_counted (fun f => f <> OutOfBounds InputBuffer));
    [exact Hz|].
  intros fd sum2 g'' Hfd Hrun.
  apply bind_Fault in Hrun as [Hf | (w & _ & Hrun)];
    [apply deref_Fault in Hf; congruence|].
  destruct (get_is_Some ib (wrap (x + fx)) (wrap (y + fy)) fd Hib)
    as [v Hv].
  { apply inRange_spec. lia. }
  rewrite Hv in Hrun. discriminate.
Qed.

Lemma forward_row_frame (outy inz d ay y : Z) (cf : Array3D E)
    (s s' : ConvLayer.t E) :
  ConvLayer.forward_row outy inz d ay y cf s = Ok s' -> conv_frame s s'.
Proof.
  intros Hrow. unfold ConvLayer.forward_row in Hrow.
  step_bind Hrow as [x1 s1] Hloop Hrow. injection Hrow as ->.
  unfold for_upto in Hloop. change s' with (x1, s').2.
  eapply (iterate_inv (fun p : Z * ConvLayer.t E => conv_frame s p.2));
    [| | exact Hloop]; [|apply conv_frame_refl].
  clear. intros ax [x s1] [x' s1'] Hs Hstep. simpl in *.
  step_bind Hstep as sum Hsum Hstep. step_bind Hstep as bd Hbias Hstep.
  step_bind Hstep as o' Hput Hstep. injection Hstep as <- <-.
  apply deref_Ok, put_same_shape in Hput.
  eapply conv_frame_trans; [exact Hs|].
  unfold conv_frame. simpl. auto 10.
Qed.

(** With the output's width and height within the input's, no call of
    [ConvLayer::forward()] stops at a read of the input. *)
Lemma ConvLayer_forward_fault (L : ConvLayer.t E) (f : fault) :
  Array3D_wf (getOutput (ConvLayer.input_ L)) ->
  sx (ConvLayer.output_ L) <= sx (getOutput (ConvLayer.input_ L)) ->
  sy (ConvLayer.output_ L) <= sy (getOutput (ConvLayer.input_ L)) ->
  ConvLayer.forward L = Fault f -> f <> OutOfBounds InputBuffer.
Proof.
  intros Hib Hsx Hsy Hrun.
  unfold ConvLayer.forward, Layer_dims, dims, for_upto in Hrun.
  eapply (iterate_fault_inv (conv_frame L)
            (fun f => f <> OutOfBounds InputBuffer));
    [| | apply conv_frame_refl | exact Hrun]; clear Hrun f.
  - intros d s s' Hs Hstep. eapply conv_frame_trans; [exact Hs|].
    unfold ConvLayer.forward_slice in Hstep.
    step_bind Hstep as cf Hcf Hstep. step_bind Hstep as [y1 s1] Hloop Hstep.
    injection Hstep as ->. unfold for_upto in Hloop.
    change s' with (y1, s').2.
    eapply (iterate_inv (fun p : Z * ConvLayer.t E => conv_frame s p.2));
      [| | exact Hloop]; [|apply conv_frame_refl].
    clear. intros ay [y s1] [y' s1'] Hs1 Hstep. simpl in *.
    step_bind Hstep as s2 Hrow Hstep. injection Hstep as <- <-.
    eapply conv_frame_trans; [exact Hs1|].
    eapply forward_row_frame. exact Hrow.
  - intros d s f Hs Hstep. unfold ConvLayer.forward_slice in Hstep.
    apply bind_Fault in Hstep as [Hf | (cf & _ & Hstep)];
      [apply deref_Fault in Hf; congruence|].
    apply bind_Fault in Hstep as [Hloop | ([y1 s1] & _ & Hf)];
      [|discriminate].
    unfold for_upto in Hloop.
    apply (fun a b c =>
             iterate_fault_inv
               (fun p : Z * ConvLayer.t E => conv_frame L p.2)
               (fun f => f <> OutOfBounds InputBuffer) _ a b _ _ _ _ c Hloop);
      [| | exact Hs]; clear - Hib Hsx Hsy.
    + intros ay [y s] [y' s'] Hs Hstep. simpl in *.
      step_bind Hstep as s2 Hrow Hstep. injection Hstep as <- <-.
      eapply conv_frame_trans; [exact Hs|].
      eapply forward_row_frame. exact Hrow.
    + intros ay [y s] f Hs Hstep. simpl in Hs.
      apply bind_Fault in Hstep as [Hrow | (s2 & _ & Hf)]; [|discriminate].
      unfold ConvLayer.forward_row in Hrow.
      apply bind_Fault in Hrow as [Hloop | ([x1 s1] & _ & Hf)];
        [|discriminate].
      unfold for_upto in Hloop.
      apply (fun a b c =>
               iterate_fault_inv
                 (fun p : Z * ConvLayer.t E => conv_frame L p.2)
                 (fun f => f <> OutOfBounds InputBuffer) _ a b _ _ _ _ c
                 Hloop);
        [| | exact Hs]; clear - Hib Hsx Hsy.
      * intros ax [x s] [x' s'] Hs Hstep. simpl in *.
        step_bind Hstep as sum Hsum Hstep. step_bind Hstep as bd Hbias Hstep.
        step_bind Hstep as o' Hput Hstep. injection Hstep as <- <-.
        apply deref_Ok, put_same_shape in Hput.
        eapply conv_frame_trans; [exact Hs|].
        unfold conv_frame. simpl. auto 10.
      * intros ax [x s] f Hs Hstep. simpl in Hs.
        destruct Hs as (Hi & _ & _ & _ & _ & _ & Hx & Hy & _).
        apply bind_Fault in Hstep as [Hw | (sum & _ & Hstep)].
        { rewrite Hi in Hw. eapply window_sum_fault; [| | | exact Hw];
            [exact Hib | lia | lia]. }
        apply bind_Fault in Hstep as [Hf | (b & _ & Hstep)];
          [apply deref_Fault in Hf; congruence|].
        apply bind_Fault in Hstep as [Hf | (o & _ & Hstep)];
          [apply deref_Fault in Hf; congruence | discriminate].
Qed.

End Faults.

(** * FullyConnectedLayer: the forward pass, in full *)

Section FullyConnectedForward.
Context {E : Type} `{ElemTy E}.

(** The pass of lines 146-153 visits the cells of the input in the order
    of its buffer, and the weights in the same order. *)
Lemma flatten_dot_fold (ib cf : Array3D E) (sum : E) (idx : Z) :
  Array3D_wf ib ->
  FullyConnectedLayer.flatten_dot ib cf (sx ib) (sy ib) (sz ib)
    = Ok (sum, idx) ->
  sum = flat_dot (data ib) (data cf).
Proof.
  intros (Hx & Hy & Hz & Hprod & Hlen) Hrun.
  unfold FullyConnectedLayer.flatten_dot in Hrun.
  set (step := fun (acc : E) (p : E * E) => add acc (mul p.1 p.2)).
  set (zs := zip (data ib) (data cf)).
  pose (upto := fun k : Z => (foldl step zero (take (Z.to_nat k) zs), k)).
  assert (Hfin : (sum, idx) = upto (sx ib * sy ib * sz ib)).
  { revert Hrun.
    apply (for_upto_counted (fun x st => st = upto (x * sy ib * sz ib)));
      [exact Hx | | reflexivity].
    intros x st st' Hxr ->.
    replace ((x + 1) * sy ib * sz ib) with ((x * sy ib + sy ib) * sz ib)
      by lia.
    apply (for_upto_counted (fun y st => st = upto ((x * sy ib + y) * sz ib)));
      [exact Hy | | f_equal; lia].
    clear st'. intros y st st' Hyr ->.
    replace ((x * sy ib + (y + 1)) * sz ib)
      with ((x * sy ib + y) * sz ib + sz ib) by lia.
    apply (for_upto_counted
             (fun z st => st = upto ((x * sy ib + y) * sz ib + z)));
      [exact Hz | | f_equal; lia].
    clear st'. intros z st st' Hzr -> Hstep. unfold upto in Hstep.
    step_bind Hstep as v Hv Hstep. step_bind Hstep as w Hw Hstep.
    injection Hstep as <-. apply deref_Ok in Hv, Hw.
    pose proof (flat_index_bound _ _ _ x y z Hxr Hyr Hzr) as Hb.
    set (k := (x * sy ib + y) * sz ib + z) in *.
    unfold get in Hv. destruct (inRange ib x y z); [|discriminate].
    unfold offset in Hv. fold k in Hv.
    unfold get_flat in Hw. destruct (_ && _); [|discriminate].
    assert (Hzs : zs !! Z.to_nat k = Some (v, w)).
    { unfold zs. apply lookup_zip_with_Some. eauto. }
    unfold upto. rewrite wrap_small by (unfold is_size_t; lia).
    replace ((x * sy ib + y) * sz ib + (z + 1)) with (k + 1)
      by (unfold k; lia).
    f_equal. replace (Z.to_nat (k + 1)) with (S (Z.to_nat k)) by lia.
    rewrite (take_S_r _ _ _ Hzs), foldl_snoc. reflexivity. }
  unfold upto in Hfin. injection Hfin as -> _.
  unfold flat_dot. fold step zs. f_equal. apply take_ge.
  unfold zs. rewrite length_zip. lia.
Qed.

(** X12. The sum of one output unit before the bias is the dot product of
    the predecessor's buffer with the unit's weight buffer, both taken in
    buffer order and accumulated from the left; the index ends at
    [numInputs]. *)
Theorem flatten_dot_is_flat_dot (ib cf : Array3D E) :
  Array3D_wf ib -> Array3D_wf cf -> dims cf = (1, 1, size ib) ->
  FullyConnectedLayer.flatten_dot ib cf (sx ib) (sy ib) (sz ib)
    = Ok (flat_dot (data ib) (data cf), size ib).
Proof.
  intros Hib Hcf Hd.
  destruct (flatten_dot_total ib cf Hib Hcf Hd) as [sum Hrun].
  rewrite Hrun. f_equal. f_equal.
  eapply flatten_dot_fold; eassumption.
Qed.

(** X13. Under the class invariant, with at least one output unit,
    [FullyConnectedLayer::forward()] runs the pass of unit 0, passes the
    assertion, reads the bias and then stops at the store of line 156,
    which is outside the output tensor. *)
Theorem FullyConnectedLayer_forward_stops_at_store
    (L : FullyConnectedLayer.t E) :
  FullyConnectedLayer_inv L ->
  0 < sz (FullyConnectedLayer.output_ L) ->
  FullyConnectedLayer.forward L = Fault (OutOfBounds OutputBuffer).
Proof.
  intros (Hib & Hout & Hsx & Hsy & Hbias & Hbd & Hlen & Hall) Hd.
  unfold FullyConnectedLayer.forward, Layer_dims, dims, for_upto.
  destruct (Z.to_nat (sz (FullyConnectedLayer.output_ L))) as [|n] eqn:Hn;
    [lia|].
  simpl. unfold FullyConnectedLayer.forward_unit.
  destruct (lookup_lt_is_Some_2 (FullyConnectedLayer.filters_ L) 0)
    as [cf Hcf]; [lia|].
  pose proof (proj1 (Forall_lookup _ _) Hall _ _ Hcf) as [Hcfwf Hcfd].
  change (Z.to_nat 0) with 0%nat. rewrite Hcf. simpl.
  destruct (flatten_dot_total _ cf Hib Hcfwf Hcfd) as [sum Hrun].
  rewrite Hrun. simpl. unfold Layer_size. rewrite Z.eqb_refl. simpl.
  destruct (get_flat_is_Some (FullyConnectedLayer.bias_ L) 0 Hbias)
    as [b Hb].
  { unfold dims in Hbd. injection Hbd as -> -> ->. lia. }
  rewrite Hb. simpl. unfold put, inRange, isInBounds. rewrite Hsx.
  reflexivity.
Qed.

End FullyConnectedForward.

(** * Construction followed by a forward pass *)

Section Composition.
Context {E : Type} `{ElemTy E}.

Lemma with_data_wf (t : Array3D E) (d : list E) :
  Array3D_wf t -> length d = length (data t) -> Array3D_wf (with_data t d).
Proof.
  intros (Hx & Hy & Hz & Hp & Hl) Hd. unfold Array3D_wf, with_data. simpl.
  rewrite Hd. auto.
Qed.

(** Storing values in the buffers of a layer keeps the class invariant. *)
Lemma conv_loaded_inv (L : ConvLayer.t E) (weights : list (list E))
    (bias out : list E) :
  ConvLayer_inv L ->
  Forall2 (fun cf w => length w = length (data cf))
          (ConvLayer.filters_ L) weights ->
  length bias = length (data (ConvLayer.bias_ L)) ->
  length out = length (data (ConvLayer.output_ L)) ->
  ConvLayer_inv (conv_loaded L weights bias out).
Proof.
  intros (Hib & Hout & Hbias & Hbd & HF & Hlen & Hall) Hw Hb Ho.
  unfold ConvLayer_inv, conv_loaded. simpl.
  split; [exact Hib|]. split; [apply with_data_wf; assumption|].
  split; [apply with_data_wf; assumption|].
  split; [exact Hbd|]. split; [exact HF|]. split.
  - rewrite length_zip_with_l_eq; [exact Hlen|].
    eapply Forall2_length. exact Hw.
  - apply Forall_lookup. intros i c Hc.
    apply lookup_zip_with_Some in Hc as (cf & w & -> & Hcf & Hwi).
    pose proof (proj1 (Forall_lookup _ _) Hall _ _ Hcf) as [Hcfwf Hcfd].
    split; [|exact Hcfd]. apply with_data_wf; [exact Hcfwf|].
    exact (Forall2_lookup_lr _ _ _ _ _ _ Hw Hcf Hwi).
Qed.

(** X11. With a well-formed predecessor and an output tensor whose width
    and height are within the predecessor's, no call of
    [ConvLayer::forward()] stops at a read of the predecessor's output:
    the taps that pass the guard of line 92 lie inside the input. *)
Theorem ConvLayer_forward_reads_inside_input (L : ConvLayer.t E) :
  Array3D_wf (getOutput (ConvLayer.input_ L)) ->
  sx (ConvLayer.output_ L) <= sx (getOutput (ConvLayer.input_ L)) ->
  sy (ConvLayer.output_ L) <= sy (getOutput (ConvLayer.input_ L)) ->
  ConvLayer.forward L <> Fault (OutOfBounds InputBuffer).
Proof.
  intros Hib Hsx Hsy Hrun.
  exact (ConvLayer_forward_fault L _ Hib Hsx Hsy Hrun eq_refl).
Qed.

(** X15. A [ConvLayer] constructed with [1 <= F <= H <= W] and stride
    [S >= 1] on a well-formed predecessor, with buffer sizes that are
    [size_t] values, and loaded with any weights, bias and output contents
    of the constructed sizes: [forward()] returns. *)
Theorem ConvLayer_new_then_forward_returns (inp : Layer E) (D F S : Z)
    (L0 : ConvLayer.t E) (weights : list (list E)) (bias out : list E) :
  ConvLayer.new (Some inp) D F S 0 = Ok L0 ->
  Array3D_wf (getOutput inp) -> is_size_t D ->
  1 <= F -> F <= sy (getOutput inp) ->
  sy (getOutput inp) <= sx (getOutput inp) -> 1 <= S ->
  F * F * sz (getOutput inp) < size_modulus ->
  sx (ConvLayer.output_ L0) * sy (ConvLayer.output_ L0) * D < size_modulus ->
  Forall2 (fun cf w => length w = length (data cf))
          (ConvLayer.filters_ L0) weights ->
  length bias = length (data (ConvLayer.bias_ L0)) ->
  length out = length (data (ConvLayer.output_ L0)) ->
  exists L', ConvLayer.forward (conv_loaded L0 weights bias out) = Ok L'.
Proof.
  intros HL Hwf HD HF1 HFH HHW HS HFp Hop Hw Hb Ho.
  pose proof Hwf as (Hx & Hy & _).
  assert (HF : is_size_t F) by (unfold is_size_t in *; lia).
  pose proof (ConvLayer_new_establishes_inv inp D F S L0 HL Hwf HD HF HFp Hop)
    as Hinv.
  destruct (ConvLayer_new_extents inp D F S L0 HL Hx Hy HF1 ltac:(lia) HFH HS)
    as (Hex & Hey & Hwide).
  assert (Hin : ConvLayer.input_ L0 = inp).
  { pose proof (ConvLayer_new_Ok_stride _ _ _ _ _ _ HL) as HS0.
    rewrite ConvLayer_new_eq in HL by exact HS0. injection HL as <-.
    reflexivity. }
  apply ConvLayer_forward_total.
  - apply conv_loaded_inv; assumption.
  - simpl. auto.
  - simpl. rewrite Hin. lia.
  - simpl. rewrite Hin. lia.
Qed.

End Composition.

(** * Windows beyond the output's extent *)

Section Windows.
Context {E : Type} `{ElemTy E}.

(** X16. The guard of line 92 drops every tap of a window that is
    anchored at or beyond the width or the height of the output tensor:
    the sum of such a window is zero whatever the filter and the input
    hold, and no element is read. *)
Theorem window_sum_beyond_output (s : ConvLayer.t E) (cf ib : Array3D E)
    (inz x y : Z) :
  is_size_t (ConvLayer.filterSize_ s) ->
  0 <= x -> x + ConvLayer.filterSize_ s <= size_modulus ->
  0 <= y -> y + ConvLayer.filterSize_ s <= size_modulus ->
  sx (ConvLayer.output_ s) <= x \/ sy (ConvLayer.output_ s) <= y ->
  ConvLayer.window_sum s cf ib inz x y = Ok zero.
Proof.
  intros HF Hx HxF Hy HyF Hbeyond.
  enough (Hl : exists sum,
            ConvLayer.window_sum s cf ib inz x y = Ok sum /\ sum = zero)
    by (destruct Hl as (sum & -> & ->); reflexivity).
  unfold ConvLayer.window_sum.
  apply (for_upto_total (fun _ (sum : E) => sum = zero));
    [exact HF | | reflexivity].
  intros fy sum0 Hfy ->.
  apply (for_upto_total (fun _ (sum : E) => sum = zero));
    [exact HF | | reflexivity].
  intros fx sum1 Hfx ->. simpl.
  rewrite !wrap_small by (unfold is_size_t; lia).
  destruct (isInBounds _ _ _) eqn:Hg; [|eauto].
  apply isInBounds_spec in Hg. lia.
Qed.

End Windows.

(** * Instances of the properties above *)

Section Instances.

Ltac by_evaluation :=
  first [ reflexivity
        | apply Z.leb_le; vm_compute; reflexivity
        | apply Z.ltb_lt; vm_compute; reflexivity ].

Ltac size_t_bounds :=
  unfold is_size_t, size_modulus;
  first [ lia | by_evaluation | split; by_evaluation ].

Ltac wf_by_evaluation :=
  unfold Array3D_wf; simpl; repeat split; size_t_bounds.

Lemma wf_ones_5x5 : Array3D_wf (getOutput ones_5x5).
Proof. wf_by_evaluation. Qed.

Lemma wf_wide_2x1 : Array3D_wf (getOutput wide_2x1).
Proof. wf_by_evaluation. Qed.

Lemma new_conv_5x5_fresh :
  ConvLayer.new (Some ones_5x5) 1 3 1 0 = Ok conv_5x5_fresh.
Proof. vm_compute. reflexivity. Qed.

Lemma new_fc_wide_fresh :
  FullyConnectedLayer.new (Some wide_2x1) 1 = Ok fc_wide_fresh.
Proof. vm_compute. reflexivity. Qed.

Lemma forward_conv_5x5 : ConvLayer.forward conv_5x5 = Ok conv_5x5_after.
Proof. vm_compute. reflexivity. Qed.

Lemma inv_conv_5x5 : ConvLayer_inv conv_5x5.
Proof.
  unfold ConvLayer_inv. simpl.
  repeat (split; [first [wf_by_evaluation | reflexivity | size_t_bounds]|]).
  repeat constructor; wf_by_evaluation.
Qed.

Lemma inv_fc_wide : FullyConnectedLayer_inv fc_wide.
Proof.
  unfold FullyConnectedLayer_inv. simpl.
  repeat (split; [first [wf_by_evaluation | reflexivity | size_t_bounds]|]).
  repeat constructor; wf_by_evaluation.
Qed.

(** The constructed layer of the 5x5 scenario. *)
Lemma ConvLayer_new_members_witness :
  ConvLayer.new (Some ones_5x5) 1 3 1 0 = Ok conv_5x5_fresh /\
  length (ConvLayer.filters_ conv_5x5_fresh) = 1%nat /\
  dims (ConvLayer.bias_ conv_5x5_fresh) = (1, 1, 1).
Proof.
  split; [exact new_conv_5x5_fresh|].
  destruct (ConvLayer_new_members ones_5x5 1 3 1 conv_5x5_fresh
              new_conv_5x5_fresh) as (_ & _ & _ & _ & Hb & Hn & _).
  split; [exact Hn | exact Hb].
Defined.

Lemma ConvLayer_new_inv_witness :
  (ConvLayer.new (Some ones_5x5) 1 3 1 0 = Ok conv_5x5_fresh /\
   Array3D_wf (getOutput ones_5x5) /\ is_size_t 1 /\ is_size_t 3 /\
   3 * 3 * 1 < size_modulus /\ 3 * 3 * 1 < size_modulus) /\
  ConvLayer_inv conv_5x5_fresh.
Proof.
  assert (Hp : 3 * 3 * 1 < size_modulus) by size_t_bounds.
  split.
  - repeat split; first [exact new_conv_5x5_fresh | apply wf_ones_5x5
                        | size_t_bounds].
  - apply (ConvLayer_new_inv ones_5x5 1 3 1 conv_5x5_fresh);
      first [exact new_conv_5x5_fresh | apply wf_ones_5x5 | exact Hp
            | size_t_bounds].
Defined.

Lemma ConvLayer_new_extent_bounds_witness :
  (ConvLayer.new (Some ones_5x5) 1 3 1 0 = Ok conv_5x5_fresh /\
   is_size_t 5 /\ 1 <= 3 /\ 3 <= 5 /\ 1 <= 1) /\
  1 <= 3 <= 5 /\ 1 <= 3 <= 5 /\ (5 <= 5 -> 3 <= 3).
Proof.
  split.
  - repeat split; first [exact new_conv_5x5_fresh | size_t_bounds].
  - apply (ConvLayer_new_extent_bounds ones_5x5 1 3 1 conv_5x5_fresh);
      first [exact new_conv_5x5_fresh | size_t_bounds].
Defined.

Lemma FullyConnectedLayer_new_inv_witness :
  (FullyConnectedLayer.new (Some wide_2x1) 1 = Ok fc_wide_fresh /\
   Array3D_wf (getOutput wide_2x1) /\ is_size_t 1) /\
  FullyConnectedLayer_inv fc_wide_fresh.
Proof.
  split.
  - repeat split; first [exact new_fc_wide_fresh | apply wf_wide_2x1
                        | size_t_bounds].
  - apply (FullyConnectedLayer_new_inv wide_2x1 1 fc_wide_fresh);
      first [exact new_fc_wide_fresh | apply wf_wide_2x1 | size_t_bounds].
Defined.

(** The 5x5 scenario: cell [(1, 1, 0)] holds its computed value, 4. *)
Lemma ConvLayer_forward_cells_witness :
  (ConvLayer.forward conv_5x5 = Ok conv_5x5_after /\
   is_size_t 3 /\ is_size_t 1) /\
  exists v, conv_cell conv_5x5 1 1 0 = Ok v /\
            get (ConvLayer.output_ conv_5x5_after) 1 1 0 = Some v.
Proof.
  split; [repeat split; first [exact forward_conv_5x5 | size_t_bounds]|].
  destruct (ConvLayer_forward_cells conv_5x5 conv_5x5_after forward_conv_5x5)
    as [Hcells _]; try size_t_bounds.
  apply Hcells; simpl; lia.
Defined.

(** The 1x2 output of [conv_tall]. *)
Lemma ConvLayer_forward_narrow_output_witness :
  (is_size_t 2 /\ is_size_t 1 /\ 0 <= 1 < 2 /\ 0 < 1) /\
  ConvLayer.forward conv_tall <> Ok conv_tall.
Proof.
  split; [repeat split; size_t_bounds|].
  apply (ConvLayer_forward_narrow_output conv_tall conv_tall);
    simpl; size_t_bounds.
Defined.

Lemma ConvLayer_forward_returns_witness :
  (ConvLayer_inv conv_5x5 /\ 3 <= 3 /\ 3 <= 5) /\
  exists L', ConvLayer.forward conv_5x5 = Ok L'.
Proof.
  split; [split; [exact inv_conv_5x5 | lia]|].
  apply (ConvLayer_forward_returns conv_5x5);
    first [exact inv_conv_5x5 | simpl; lia].
Defined.

Lemma ConvLayer_forward_keeps_inv_witness :
  (ConvLayer.forward conv_5x5 = Ok conv_5x5_after /\ ConvLayer_inv conv_5x5) /\
  ConvLayer_inv conv_5x5_after.
Proof.
  split; [split; [exact forward_conv_5x5 | exact inv_conv_5x5]|].
  exact (ConvLayer_forward_keeps_inv conv_5x5 conv_5x5_after forward_conv_5x5
           inv_conv_5x5).
Defined.

Lemma ConvLayer_forward_reads_inside_input_witness :
  (Array3D_wf (getOutput (ConvLayer.input_ conv_tall)) /\ 1 <= 1 /\ 2 <= 2) /\
  ConvLayer.forward conv_tall <> Fault (OutOfBounds InputBuffer).
Proof.
  assert (Hwf : Array3D_wf (getOutput (ConvLayer.input_ conv_tall)))
    by wf_by_evaluation.
  split; [split; [exact Hwf | lia]|].
  apply (ConvLayer_forward_reads_inside_input conv_tall);
    first [exact Hwf | simpl; lia].
Defined.

(** The input [3; 5] against the weights [1; 1]. *)
Lemma flatten_dot_is_flat_dot_witness :
  (Array3D_wf (getOutput wide_2x1) /\ Array3D_wf (mkArray3D 1 1 2 [1; 1]) /\
   dims (mkArray3D 1 1 2 [1; 1]) = (1, 1, size (getOutput wide_2x1))) /\
  FullyConnectedLayer.flatten_dot (getOutput wide_2x1)
    (mkArray3D 1 1 2 [1; 1]) 2 1 1 = Ok (8, 2).
Proof.
  assert (Hcf : Array3D_wf (mkArray3D 1 1 2 [1; 1])) by wf_by_evaluation.
  split; [split; [apply wf_wide_2x1 | split; [exact Hcf | reflexivity]]|].
  exact (flatten_dot_is_flat_dot (getOutput wide_2x1) (mkArray3D 1 1 2 [1; 1])
           wf_wide_2x1 Hcf eq_refl).
Defined.

Lemma FullyConnectedLayer_forward_stops_at_store_witness :
  (FullyConnectedLayer_inv fc_wide /\ 0 < 1) /\
  FullyConnectedLayer.forward fc_wide = Fault (OutOfBounds OutputBuffer).
Proof.
  split; [split; [exact inv_fc_wide | lia]|].
  apply (FullyConnectedLayer_forward_stops_at_store fc_wide);
    [exact inv_fc_wide | simpl; lia].
Defined.

Lemma FullyConnectedLayer_forward_never_returns_witness :
  (1 <= 1 /\ 0 < 1) /\
  FullyConnectedLayer.forward fc_wide <> Ok fc_wide.
Proof.
  split; [lia|].
  apply (FullyConnectedLayer_forward_never_returns fc_wide fc_wide);
    simpl; lia.
Defined.

(** The 5x5 scenario, from the constructor to the end of [forward()]. *)
Lemma ConvLayer_new_then_forward_returns_witness :
  (ConvLayer.new (Some ones_5x5) 1 3 1 0 = Ok conv_5x5_fresh /\
   Array3D_wf (getOutput ones_5x5) /\ is_size_t 1 /\
   1 <= 3 /\ 3 <= 5 /\ 5 <= 5 /\ 1 <= 1 /\
   3 * 3 * 1 < size_modulus /\ 3 * 3 * 1 < size_modulus /\
   Forall2 (fun cf w => length w = length (data cf))
     (ConvLayer.filters_ conv_5x5_fresh) [replicate 9 1] /\
   length [0] = length (data (ConvLayer.bias_ conv_5x5_fresh)) /\
   length (replicate 9 0)
     = length (data (ConvLayer.output_ conv_5x5_fresh))) /\
  exists L',
    ConvLayer.forward
      (conv_loaded conv_5x5_fresh [replicate 9 1] [0] (replicate 9 0))
    = Ok L'.
Proof.
  assert (Hp : 3 * 3 * 1 < size_modulus) by size_t_bounds.
  assert (Hw : Forall2 (fun cf w => length w = length (data cf))
                 (ConvLayer.filters_ conv_5x5_fresh) [replicate 9 1])
    by (repeat constructor).
  split.
  - split; [exact new_conv_5x5_fresh|]. split; [apply wf_ones_5x5|].
    split; [size_t_bounds|].
    repeat (split; [first [lia | exact Hp | exact Hw | reflexivity]|]).
    reflexivity.
  - apply (ConvLayer_new_then_forward_returns ones_5x5 1 3 1 conv_5x5_fresh
             [replicate 9 1] [0] (replicate 9 0));
      first [ exact new_conv_5x5_fresh | apply wf_ones_5x5 | exact Hw
            | exact Hp | reflexivity | size_t_bounds | simpl; lia ].
Defined.

(** The window anchored at column 3 of the 5x5 scenario. *)
Lemma window_sum_beyond_output_witness :
  (is_size_t 3 /\ 0 <= 3 /\ 3 + 3 <= size_modulus /\ 0 <= 0 /\ 3 <= 3) /\
  ConvLayer.window_sum conv_5x5 (mkArray3D 3 3 1 (replicate 9 1))
    (getOutput ones_5x5) 1 3 0 = Ok 0.
Proof.
  split; [repeat split; size_t_bounds|].
  change (@Ok Z 0) with (@Ok Z (@zero Z Z_ElemTy)).
  apply (window_sum_beyond_output conv_5x5); simpl; size_t_bounds.
Defined.

End Instances.

(** * Stores outside the output tensor *)

Section StoresOutside.

(** C10. Where the code leaves the claim.  Not every call of [forward()]
    writes only the layer's own output tensor.  The constructed
    [FullyConnectedLayer] with one unit over the input [3; 5] stores at
    [(1, 1, 0)] of its [(1, 1, 1)] output (line 156), and the constructed
    [ConvLayer] over the 1x2x1 input stores at [(1, 0, 0)] of its
    [(1, 2, 1)] output (lines 83 and 102): either cell is out of range,
    its place in the buffer lies at or past the buffer's end, and the
    call stops at that store. *)
Theorem forward_stores_outside_output :
  (FullyConnectedLayer.new (Some wide_2x1) 1 = Ok fc_wide_fresh /\
   fc_loaded fc_wide_fresh [[1; 1]] [0] [0] = fc_wide /\
   inRange (FullyConnectedLayer.output_ fc_wide) 1 1 0 = false /\
   (length (data (FullyConnectedLayer.output_ fc_wide))
      <= offset (FullyConnectedLayer.output_ fc_wide) 1 1 0)%nat /\
   (forall v : Z, put (FullyConnectedLayer.output_ fc_wide) 1 1 0 v = None) /\
   FullyConnectedLayer.forward fc_wide = Fault (OutOfBounds OutputBuffer)) /\
  (exists L0,
      ConvLayer.new (Some tall_1x2) 1 1 1 0 = Ok L0 /\
      conv_loaded L0 [[1]] [0] [0; 0] = conv_tall /\
      inRange (ConvLayer.output_ conv_tall) 1 0 0 = false /\
      (length (data (ConvLayer.output_ conv_tall))
         <= offset (ConvLayer.output_ conv_tall) 1 0 0)%nat /\
      (forall v : Z, put (ConvLayer.output_ conv_tall) 1 0 0 v = None) /\
      ConvLayer.forward conv_tall = Fault (OutOfBounds OutputBuffer)).
Proof.
  split.
  - split; [vm_compute; reflexivity|]. split; [reflexivity|].
    split; [reflexivity|]. split; [vm_compute; lia|].
    split; [intros v; reflexivity | vm_compute; reflexivity].
  - eexists. split; [vm_compute; reflexivity|]. split; [reflexivity|].
    split; [reflexivity|]. split; [vm_compute; lia|].
    split; [intros v; reflexivity | vm_compute; reflexivity].
Qed.

End StoresOutside.
